(** * Live bus map: refresh cache, feed merge and filter view

    A shallow embedding of [flask_app.py].  The module polls two GTFS-realtime
    feeds, joins vehicle positions with trip updates, keeps the result in a
    process-wide cache and derives the filter lists and movement paths of the
    page.

    Conventions of the embedding
    - a pandas [DataFrame] is the list of its rows, a row is a record;
      [pd.DataFrame()] and [pd.DataFrame([])] are the empty list;
    - a Python [float] is a binary64 primitive float, so the comparisons of
      [categorize_region] and of the movement test are the IEEE ones;
    - a [datetime] is its number of microseconds since the epoch, a
      [timedelta] a number of microseconds;
    - code that can raise returns a [result]; the module-level [CACHE] and the
      HTTP requests issued are threaded through a state monad;
    - the protobuf decoder, the timestamp formatter and pandas' [mean] are
      external: they are parameters, the first two with their failures. *)

From Stdlib Require Import ZArith List String Ascii Bool Lia.
From Stdlib Require Import Floats.
From Stdlib Require Import Orders Sorting.Mergesort Sorting.Sorted Sorting.Permutation.
From Stdlib Require Import RelationClasses.
Import ListNotations.

Set Warnings "-inexact-float".
Local Open Scope string_scope.
Local Open Scope list_scope.
Local Open Scope Z_scope.

(* ================================================================= *)
(** ** Python and pandas primitives *)

Module Py.

(** [bytes] *)
Definition bytes := list Byte.byte.

(** Exceptions that can leave the functions of the module. *)
Inductive exn : Type :=
| DecodeError
| KeyError (key : string)
| ValueError
| OverflowError
| OSError.

Inductive result (A : Type) : Type :=
| Returned (a : A)
| Raised (e : exn).
Arguments Returned {A} a.
Arguments Raised {A} e.

(** Sequencing of code that can raise. *)
Definition and_then {A B : Type} (r : result A) (k : A -> result B) : result B :=
  match r with
  | Returned a => k a
  | Raised e => Raised e
  end.

(** A list comprehension [[f(x) for x in l]]: the elements are built in
    order and the first exception leaves the comprehension. *)
Fixpoint collect {A B : Type} (f : A -> result B) (l : list A) : result (list B) :=
  match l with
  | [] => Returned []
  | x :: rest =>
      and_then (f x) (fun y =>
      and_then (collect f rest) (fun ys => Returned (y :: ys)))
  end.

(** Truth value of [bytes | None]: [None] and [b''] are falsy. *)
Definition truthy (content : option bytes) : bool :=
  match content with
  | Some (_ :: _) => true
  | _ => false
  end.

Definition content_of (content : option bytes) : bytes :=
  match content with
  | Some b => b
  | None => []
  end.

(** [x or y] on an optional datetime (a datetime is always truthy). *)
Definition or_else (x : option Z) (y : Z) : Z :=
  match x with
  | Some t => t
  | None => y
  end.

(** [DataFrame.empty] *)
Definition empty {A : Type} (df : list A) : bool :=
  match df with
  | [] => true
  | _ :: _ => false
  end.

(** [Series.unique()]: distinct values in order of first appearance. *)
Fixpoint unique_from (seen l : list string) : list string :=
  match l with
  | [] => []
  | x :: l' =>
      if existsb (String.eqb x) seen then unique_from seen l'
      else x :: unique_from (x :: seen) l'
  end.

Definition unique (l : list string) : list string := unique_from [] l.

(** [Series.isin(values)] on one cell. *)
Definition isin (x : string) (values : list string) : bool :=
  existsb (String.eqb x) values.

(** [s.split(sep)[0]]: the prefix of [s] before the first [sep]. *)
Fixpoint split_first (sep : ascii) (s : string) : string :=
  match s with
  | EmptyString => EmptyString
  | String c s' => if Ascii.eqb c sep then EmptyString else String c (split_first sep s')
  end.

(** [pd.notna] on a float cell; a missing cell ([NaN], [pd.NA]) is [None]. *)
Definition notna (cell : option float) : bool :=
  match cell with
  | Some x => negb (PrimFloat.is_nan x)
  | None => false
  end.

(** The float read from a cell: a missing cell reads as [NaN]. *)
Definition cell_value (cell : option float) : float :=
  match cell with
  | Some x => x
  | None => PrimFloat.nan
  end.

(** [a != b] on floats. *)
Definition float_ne (a b : float) : bool := negb (PrimFloat.eqb a b).

(** [request.args.get(key, default)] and [request.args.getlist(key)] on the
    query string, kept as the list of its [key=value] pairs. *)
Fixpoint args_get (args : list (string * string)) (key default : string) : string :=
  match args with
  | [] => default
  | (k, v) :: rest => if String.eqb k key then v else args_get rest key default
  end.

Definition args_getlist (args : list (string * string)) (key : string) : list string :=
  map snd (filter (fun kv => String.eqb (fst kv) key) args).

End Py.

(** [sorted] on strings: Python compares strings by code point, which on
    UTF-8 encoded strings is the byte-wise lexicographic order [String.leb].
    Equal strings cannot be told apart, so the result does not depend on the
    sorting algorithm. *)
Module StringOrder <: TotalLeBool.
Definition t := string.
Definition leb := String.leb.
Theorem leb_total : forall a1 a2, leb a1 a2 = true \/ leb a2 a1 = true.
Proof. exact String.leb_total. Qed.
End StringOrder.

Module StringSort := Sort StringOrder.

Definition sorted (l : list string) : list string := StringSort.sort l.

(* ================================================================= *)
(** ** Decoded GTFS-realtime messages

    The fields of [gtfs_realtime_pb2.FeedMessage] the module reads.  An unset
    scalar field reads as its default, so only the presence tests the code
    makes ([HasField]) are options. *)

Module Feed.

Record VehiclePosition : Type := {
  vp_trip_id : string;              (* v.trip.trip_id *)
  vp_route_id : string;             (* v.trip.route_id *)
  vp_label : string;                (* v.vehicle.label *)
  vp_latitude : float;              (* v.position.latitude *)
  vp_longitude : float;             (* v.position.longitude *)
  vp_current_stop_sequence : Z;
  vp_stop_id : string;
  vp_current_status : Z;
  vp_timestamp : option Z           (* Some when HasField("timestamp") *)
}.

Record StopTimeUpdate : Type := {
  arrival_delay : Z                 (* arrival.delay, a signed 32-bit field *)
}.

Record TripUpdate : Type := {
  tu_trip_id : string;              (* tu.trip.trip_id *)
  stop_time_update : list StopTimeUpdate
}.

Record FeedEntity : Type := {
  vehicle : option VehiclePosition; (* Some when HasField("vehicle") *)
  trip_update : option TripUpdate   (* Some when HasField("trip_update") *)
}.

Record FeedMessage : Type := {
  entity : list FeedEntity
}.

End Feed.

(* ================================================================= *)
(** ** flask_app.py *)

Module FlaskApp.
Import Py Feed.

(** *** Constants *)

Definition VEHICLE_POSITIONS_URL : string :=
  "https://gtfsrt.api.translink.com.au/api/realtime/SEQ/VehiclePositions/Bus".
Definition TRIP_UPDATES_URL : string :=
  "https://gtfsrt.api.translink.com.au/api/realtime/SEQ/TripUpdates/Bus".
Definition REFRESH_INTERVAL_SECONDS : Z := 60.

(** [delta.total_seconds() < seconds] for a [timedelta] of [delta]
    microseconds.  [total_seconds] is the correctly rounded quotient by 10^6,
    which is below the integer [seconds] exactly when [delta] is below
    [seconds * 10^6]. *)
Definition total_seconds_lt (delta seconds : Z) : bool :=
  delta <? seconds * 1000000.

(** *** Frames *)

(** A row of [parse_vehicle_positions]' frame. *)
Record VehicleRow : Type := {
  trip_id : string;
  route_id : string;
  vehicle_id : string;
  lat : float;
  lon : float;
  stop_sequence : Z;
  stop_id : string;
  current_status : Z;
  timestamp : string
}.

(** A row of [parse_trip_updates]' frame. *)
Record UpdateRow : Type := {
  u_trip_id : string;
  u_delay : Z;
  u_status : string
}.

(** A row of [vehicles_df.merge(updates_df, ...)]: the vehicle columns and the
    two columns of the right frame, missing ([NaN]) where no update matched. *)
Record JoinedRow : Type := {
  j_vehicle : VehicleRow;
  j_delay : option Z;
  j_status : option string
}.

(** A row of [live_data], the cached snapshot: the vehicle columns, the filled
    [delay] and [status], and the derived [route_name] and [region]. *)
Record LiveRow : Type := {
  veh : VehicleRow;
  delay : Z;
  status : string;
  route_name : string;
  region : string
}.

(** *** The cache *)

Record Cache : Type := {
  data : list LiveRow;
  last_refreshed : option Z;
  previous_data : list LiveRow
}.

(** [CACHE] as the module is loaded. *)
Definition CACHE_init : Cache :=
  {| data := []; last_refreshed := None; previous_data := [] |}.

(** The process state: the cache and the URLs requested so far, oldest
    first. *)
Record World : Type := {
  CACHE : Cache;
  requested : list string
}.

Definition M (A : Type) : Type := World -> result A * World.

Definition ret {A : Type} (a : A) : M A := fun w => (Returned a, w).

Definition raise {A : Type} (e : exn) : M A := fun w => (Raised e, w).

Definition bind {A B : Type} (m : M A) (k : A -> M B) : M B :=
  fun w =>
    match m w with
    | (Returned a, w') => k a w'
    | (Raised e, w') => (Raised e, w')
    end.

Notation "x <- m ;; k" := (bind m (fun x => k))
  (at level 61, m at next level, right associativity).
Notation "' pat <- m ;; k" := (bind m (fun x => match x with pat => k end))
  (at level 61, pat pattern, m at next level, right associativity).

Definition lift {A : Type} (r : result A) : M A := fun w => (r, w).

Definition get_cache : M Cache := fun w => (Returned (CACHE w), w).

Definition set_cache (c : Cache) : M unit :=
  fun w => (Returned tt, {| CACHE := c; requested := requested w |}).

Definition log_request (url : string) : M unit :=
  fun w => (Returned tt, {| CACHE := CACHE w; requested := requested w ++ [url] |}).

(** *** Status and region classification *)

(** Line 64, the conditional expression on the delay. *)
Definition delay_status (delay : Z) : string :=
  if delay >? 300 then "Delayed"
  else if delay <? -60 then "Early"
  else "On Time".

(** Lines 95-99. *)
Definition categorize_region (lat : float) : string :=
  if PrimFloat.leb (-27.75)%float lat && PrimFloat.leb lat (-27.0)%float then "Brisbane"
  else if PrimFloat.leb (-28.2)%float lat && PrimFloat.leb lat (-27.78)%float then "Gold Coast"
  else if PrimFloat.leb (-26.9)%float lat && PrimFloat.leb lat (-26.3)%float then "Sunshine Coast"
  else "Other".

(** *** Merge *)

(** [vehicles_df.merge(updates_df, on="trip_id", how="left")].  pandas looks
    the key up in both frames first: [updates_df] is [pd.DataFrame([])] when
    no update was decoded, a frame without columns, and the lookup raises
    [KeyError].  Otherwise every left row, in order, is paired with each right
    row of the same key, in order, or with missing cells when there is
    none. *)
Definition matches (v : VehicleRow) (updates_df : list UpdateRow) : list UpdateRow :=
  filter (fun u => String.eqb (u_trip_id u) (trip_id v)) updates_df.

Definition join_row (v : VehicleRow) (updates_df : list UpdateRow) : list JoinedRow :=
  match matches v updates_df with
  | [] => [ {| j_vehicle := v; j_delay := None; j_status := None |} ]
  | ms => map (fun u => {| j_vehicle := v; j_delay := Some (u_delay u);
                           j_status := Some (u_status u) |}) ms
  end.

Definition merge_left_on_trip_id (vehicles_df : list VehicleRow)
  (updates_df : list UpdateRow) : result (list JoinedRow) :=
  match updates_df with
  | [] => Raised (KeyError "trip_id")
  | _ :: _ => Returned (flat_map (fun v => join_row v updates_df) vehicles_df)
  end.

(** [live_data["delay"].fillna(0, inplace=True)] and
    [live_data["status"].fillna("On Time", inplace=True)]: the in-place fill
    through the column selection updates the frame (pandas before 3.0). *)
Definition fillna_delay (cell : option Z) : Z :=
  match cell with Some d => d | None => 0 end.

Definition fillna_status (cell : option string) : string :=
  match cell with Some s => s | None => "On Time" end.

(** Lines 91-100 on one row. *)
Definition live_row (j : JoinedRow) : LiveRow :=
  {| veh := j_vehicle j;
     delay := fillna_delay (j_delay j);
     status := fillna_status (j_status j);
     route_name := split_first "-"%char (route_id (j_vehicle j));
     region := categorize_region (lat (j_vehicle j)) |}.

(** Lines 90-100. *)
Definition build_live_data (vehicles_df : list VehicleRow)
  (updates_df : list UpdateRow) : result (list LiveRow) :=
  match merge_left_on_trip_id vehicles_df updates_df with
  | Returned joined => Returned (map live_row joined)
  | Raised e => Raised e
  end.

Section Externals.

(** [FeedMessage.ParseFromString]: [None] when it raises [DecodeError]. *)
Variable ParseFromString : bytes -> option FeedMessage.

(** [datetime.fromtimestamp(t, BRISBANE_TZ).strftime('%Y-%m-%d %H:%M:%S %Z')]:
    [fromtimestamp] raises [ValueError], [OverflowError] or [OSError] on a
    timestamp out of the range of [datetime] or of the platform. *)
Variable strftime : Z -> result string.

Definition decode (content : bytes) : M FeedMessage :=
  match ParseFromString content with
  | Some feed => ret feed
  | None => raise DecodeError
  end.

(** *** Fetching and parsing *)

(** [None] stands for a [requests.RequestException] (transport error, timeout
    or the non-2xx status [raise_for_status] turns into one), which
    [fetch_gtfs_rt] catches. *)
Definition fetch_gtfs_rt (http : string -> option bytes) (url : string)
  : M (option bytes) :=
  _ <- log_request url ;;
  ret (http url).

(** Line 50, the conditional expression of the [timestamp] key. *)
Definition timestamp_cell (v : VehiclePosition) : result string :=
  match vp_timestamp v with
  | Some t => strftime t
  | None => Returned "N/A"
  end.

(** Lines 46-51, the dictionary of one vehicle; only the timestamp can
    raise. *)
Definition vehicle_row (v : VehiclePosition) : result VehicleRow :=
  and_then (timestamp_cell v) (fun ts =>
  Returned {| trip_id := vp_trip_id v;
              route_id := vp_route_id v;
              vehicle_id := vp_label v;
              lat := vp_latitude v;
              lon := vp_longitude v;
              stop_sequence := vp_current_stop_sequence v;
              stop_id := vp_stop_id v;
              current_status := vp_current_status v;
              timestamp := ts |}).

(** Line 51, the two [for] clauses: the vehicles of the entities that have
    one, in feed order. *)
Definition vehicles_present (feed : FeedMessage) : list VehiclePosition :=
  flat_map (fun e => match vehicle e with
                     | Some v => [v]
                     | None => []
                     end) (entity feed).

(** Lines 45-52, the comprehension over [feed.entity]. *)
Definition vehicle_rows (feed : FeedMessage) : result (list VehicleRow) :=
  collect vehicle_row (vehicles_present feed).

Definition parse_vehicle_positions (content : bytes) : M (list VehicleRow) :=
  feed <- decode content ;;
  lift (vehicle_rows feed).

(** Lines 60-65, the body of the loop: what one entity appends to
    [updates]. *)
Definition update_rows (e : FeedEntity) : list UpdateRow :=
  match trip_update e with
  | Some tu =>
      match stop_time_update tu with
      | stu :: _ =>
          let delay := arrival_delay stu in
          [ {| u_trip_id := tu_trip_id tu; u_delay := delay;
               u_status := delay_status delay |} ]
      | [] => []
      end
  | None => []
  end.

(** Lines 58-65. *)
Definition trip_update_rows (feed : FeedMessage) : list UpdateRow :=
  flat_map update_rows (entity feed).

Definition parse_trip_updates (content : bytes) : M (list UpdateRow) :=
  feed <- decode content ;;
  ret (trip_update_rows feed).

(** *** get_live_bus_data *)

(** Lines 76-107: the refresh, with [c] the cache as the call found it. *)
Definition refresh (c : Cache) (now : Z) (http : string -> option bytes)
  : M (list LiveRow * Z) :=
  vehicle_content <- fetch_gtfs_rt http VEHICLE_POSITIONS_URL ;;
  trip_content <- fetch_gtfs_rt http TRIP_UPDATES_URL ;;
  if negb (truthy vehicle_content) || negb (truthy trip_content)
  then ret (data c, or_else (last_refreshed c) now)
  else
    vehicles_df <- parse_vehicle_positions (content_of vehicle_content) ;;
    updates_df <- parse_trip_updates (content_of trip_content) ;;
    if empty vehicles_df then ret (data c, or_else (last_refreshed c) now)
    else
      live_data <- lift (build_live_data vehicles_df updates_df) ;;
      _ <- set_cache {| data := live_data;
                        last_refreshed := Some now;
                        previous_data := data c |} ;;
      ret (live_data, now).

(** [now] is [datetime.now(BRISBANE_TZ)] as read on line 70, [http] the
    outcome of [requests.get] for each URL during this call.  Line 73: a
    datetime is truthy, so the first conjunct tests for [None]. *)
Definition get_live_bus_data (now : Z) (http : string -> option bytes)
  : M (list LiveRow * Z) :=
  c <- get_cache ;;
  match last_refreshed c with
  | Some t =>
      if total_seconds_lt (now - t) REFRESH_INTERVAL_SECONDS
      then ret (data c, t)
      else refresh c now http
  | None => refresh c now http
  end.

End Externals.

(** *** The page: filters, options and movement paths *)

(** The vehicle columns of a snapshot row. *)
Definition row_vehicle_id (r : LiveRow) : string := vehicle_id (veh r).
Definition row_lat (r : LiveRow) : float := lat (veh r).
Definition row_lon (r : LiveRow) : float := lon (veh r).

(** Line 130. *)
Definition df_for_route_options (master_df : list LiveRow)
  (selected_region : string) : list LiveRow :=
  if negb (String.eqb selected_region "All")
  then filter (fun r => String.eqb (region r) selected_region) master_df
  else master_df.

(** Line 133. *)
Definition df_for_status_options (master_df : list LiveRow)
  (selected_region selected_route : string) : list LiveRow :=
  let df := df_for_route_options master_df selected_region in
  if negb (String.eqb selected_route "All")
  then filter (fun r => String.eqb (route_name r) selected_route) df
  else df.

(** Line 134. *)
Definition status_options_of (master_df : list LiveRow)
  (selected_region selected_route : string) : list string :=
  sorted (unique (map status
    (df_for_status_options master_df selected_region selected_route))).

(** Lines 137-138: an empty list is falsy. *)
Definition resolve_status (selected_status status_options : list string)
  : list string :=
  match selected_status with
  | [] => status_options
  | _ :: _ => selected_status
  end.

(** Line 140. *)
Definition df_for_vehicle_options (master_df : list LiveRow)
  (selected_region selected_route : string) (selected_status : list string)
  : list LiveRow :=
  filter (fun r => isin (status r) selected_status)
    (df_for_status_options master_df selected_region selected_route).

(** Lines 144-146. *)
Definition filter_vehicle (df : list LiveRow) (selected_vehicle : string)
  : list LiveRow :=
  if negb (String.eqb selected_vehicle "All")
  then filter (fun r => String.eqb (row_vehicle_id r) selected_vehicle) df
  else df.

(** A row of [filtered_df] after lines 149-155: the snapshot row and the two
    columns [lat_prev] and [lon_prev]. *)
Record ViewRow : Type := {
  row : LiveRow;
  lat_prev : option float;
  lon_prev : option float
}.

Definition no_prev (r : LiveRow) : ViewRow :=
  {| row := r; lat_prev := None; lon_prev := None |}.

(** The rows line 152 makes of one row of the filtered view: one per row of
    the previous snapshot with the same [vehicle_id], one with missing cells
    when there is none. *)
Definition prev_matches (r : LiveRow) (previous_df : list LiveRow) : list LiveRow :=
  filter (fun p => String.eqb (row_vehicle_id p) (row_vehicle_id r)) previous_df.

Definition join_prev (previous_df : list LiveRow) (r : LiveRow) : list ViewRow :=
  match prev_matches r previous_df with
  | [] => [no_prev r]
  | ps => map (fun p => {| row := r; lat_prev := Some (row_lat p);
                           lon_prev := Some (row_lon p) |}) ps
  end.

(** Lines 149-155. *)
Definition with_previous (filtered_df previous_df : list LiveRow) : list ViewRow :=
  if negb (empty previous_df)
  then flat_map (join_prev previous_df) filtered_df
  else map no_prev filtered_df.

(** What is added to the folium map. *)
Record AntPath : Type := {
  path_from : float * float;
  path_to : float * float
}.

Record Marker : Type := {
  location : float * float;
  color : string
}.

(** folium's check of a location, made by [folium.Map], [folium.Marker] and,
    for each of its locations, [AntPath]: a latitude or longitude that is
    [NaN] raises [ValueError]. *)
Definition validate_location (loc : float * float) : result (float * float) :=
  if PrimFloat.is_nan (fst loc) || PrimFloat.is_nan (snd loc)
  then Raised ValueError
  else Returned loc.

(** Line 162, the condition; [and] and [or] are evaluated left to right. *)
Definition moved (v : ViewRow) : bool :=
  notna (lat_prev v)
  && (float_ne (row_lat (row v)) (cell_value (lat_prev v))
      || float_ne (row_lon (row v)) (cell_value (lon_prev v))).

(** Line 163, [AntPath(locations=[[...], [...]])]: the two locations are
    checked in order. *)
Definition ant_path (from to : float * float) : result AntPath :=
  and_then (validate_location from) (fun f =>
  and_then (validate_location to) (fun t =>
  Returned {| path_from := f; path_to := t |})).

(** Lines 162-163 on one row. *)
Definition row_paths (v : ViewRow) : result (list AntPath) :=
  if moved v
  then and_then (ant_path (cell_value (lat_prev v), cell_value (lon_prev v))
                          (row_lat (row v), row_lon (row v)))
         (fun p => Returned [p])
  else Returned [].

(** Line 165. *)
Definition marker_color (status : string) : string :=
  if String.eqb status "Delayed" then "red"
  else if String.eqb status "Early" then "blue"
  else "green".

(** Lines 165-167 on one row. *)
Definition row_marker (v : ViewRow) : result Marker :=
  and_then (validate_location (row_lat (row v), row_lon (row v))) (fun loc =>
  Returned {| location := loc; color := marker_color (status (row v)) |}).

(** Lines 169-170 on one row: the label goes to a second marker at the same
    location, which is checked again and is not added to the map. *)
Definition row_label (v : ViewRow) : result unit :=
  and_then (validate_location (row_lat (row v), row_lon (row v))) (fun _ =>
  Returned tt).

(** Lines 161-170, the loop over the rows: the paths and markers added to
    the map, unless a row raises. *)
Fixpoint draw_rows (view : list ViewRow) : result (list AntPath * list Marker) :=
  match view with
  | [] => Returned ([], [])
  | v :: rest =>
      and_then (row_paths v) (fun ps =>
      and_then (row_marker v) (fun mk =>
      and_then (row_label v) (fun _ =>
      and_then (draw_rows rest) (fun drawn =>
      Returned (ps ++ fst drawn, mk :: snd drawn)))))
  end.

Inductive MapHtml : Type :=
| FoliumMap (center : float * float) (paths : list AntPath) (markers : list Marker)
| NoMatch (html : string).

(** The paths drawn on the page. *)
Definition map_paths (m : MapHtml) : list AntPath :=
  match m with
  | FoliumMap _ paths _ => paths
  | NoMatch _ => []
  end.

(** The markers drawn on the page. *)
Definition map_markers (m : MapHtml) : list Marker :=
  match m with
  | FoliumMap _ _ markers => markers
  | NoMatch _ => []
  end.

Record SelectedFilters : Type := {
  sel_region : string;
  sel_route : string;
  sel_status : list string;
  sel_vehicle : string
}.

(** The template context of line 177 without the map, which [Page] carries
    beside it, and without the formatted clock strings. *)
Record Context : Type := {
  tracked_buses_count : nat;
  last_refreshed_time : Z;
  region_options : list string;
  route_options : list string;
  status_options : list string;
  vehicle_options : list string;
  selected_filters : SelectedFilters;
  rows : list ViewRow
}.

(** Lines 118-155 and the entries of the context they decide: the filters,
    the option lists, the rows to draw and their count. *)
Definition index_view (master_df previous_df : list LiveRow)
  (refreshed : Z) (args : list (string * string)) : Context :=
  let selected_region := args_get args "region" "Gold Coast" in
  let selected_route := args_get args "route" "700" in
  let selected_status := args_getlist args "status" in
  let selected_vehicle := args_get args "vehicle" "All" in
  let region_options := "All" :: sorted (unique (map region master_df)) in
  let route_options :=
    "All" :: sorted (unique (map route_name
      (df_for_route_options master_df selected_region))) in
  let status_options := status_options_of master_df selected_region selected_route in
  let selected_status := resolve_status selected_status status_options in
  let df_vehicle :=
    df_for_vehicle_options master_df selected_region selected_route selected_status in
  let vehicle_options := "All" :: sorted (unique (map row_vehicle_id df_vehicle)) in
  let filtered_df := filter_vehicle df_vehicle selected_vehicle in
  let view := with_previous filtered_df previous_df in
  {| tracked_buses_count := List.length view;
     last_refreshed_time := refreshed;
     region_options := region_options;
     route_options := route_options;
     status_options := status_options;
     vehicle_options := vehicle_options;
     selected_filters := {| sel_region := selected_region;
                            sel_route := selected_route;
                            sel_status := selected_status;
                            sel_vehicle := selected_vehicle |};
     rows := view |}.

Inductive Response : Type :=
| Page (context : Context) (map_html : MapHtml)
| ServiceUnavailable (body : string).

Section Route.

Variable ParseFromString : bytes -> option FeedMessage.
Variable strftime : Z -> result string.

(** [Series.mean()] of pandas on a float column (it skips [NaN] cells and is
    [NaN] on a column without a number). *)
Variable mean : list float -> float.

(** Lines 158-174: the map, the no-match message for an empty view, or the
    [ValueError] folium raises. *)
Definition make_map (view : list ViewRow) : result MapHtml :=
  if negb (empty view)
  then
    and_then (validate_location (mean (map (fun v => row_lat (row v)) view),
                                 mean (map (fun v => row_lon (row v)) view)))
      (fun center =>
    and_then (draw_rows view) (fun drawn =>
    Returned (FoliumMap center (fst drawn) (snd drawn))))
  else Returned (NoMatch "<p>No buses match the current filter criteria.</p>").

(** Lines 157-197 for the context of lines 118-155: the page with its map,
    or what drawing the map raised. *)
Definition render (ctx : Context) : result Response :=
  and_then (make_map (rows ctx)) (fun m => Returned (Page ctx m)).

(** Lines 111-197. *)
Definition index (now : Z) (http : string -> option bytes)
  (args : list (string * string)) : M Response :=
  ' (master_df, refreshed) <- get_live_bus_data ParseFromString strftime now http ;;
  if empty master_df
  then ret (ServiceUnavailable
    "Could not retrieve live bus data at the moment. Please try again later.")
  else
    c <- get_cache ;;
    lift (render (index_view master_df (previous_data c) refreshed args)).

End Route.

End FlaskApp.

(* ================================================================= *)
(** ** Sample feeds and requests

    Concrete inputs on which the statements below are evaluated.  The sample
    decoder stands for the protobuf library on five payloads, told apart by
    their first byte; every other payload is malformed. *)

Module Samples.
Import Py Feed FlaskApp.

Definition bus_gold_coast : VehiclePosition :=
  {| vp_trip_id := "T1"; vp_route_id := "700-3136"; vp_label := "G101";
     vp_latitude := (-28.0)%float; vp_longitude := 153.43%float;
     vp_current_stop_sequence := 7; vp_stop_id := "300112";
     vp_current_status := 2; vp_timestamp := Some 1700000000 |}.

Definition bus_brisbane : VehiclePosition :=
  {| vp_trip_id := "T2"; vp_route_id := "130-2951"; vp_label := "B202";
     vp_latitude := (-27.5)%float; vp_longitude := 153.02%float;
     vp_current_stop_sequence := 3; vp_stop_id := "010802";
     vp_current_status := 1; vp_timestamp := None |}.

Definition vehicle_entity (v : VehiclePosition) : FeedEntity :=
  {| vehicle := Some v; trip_update := None |}.

Definition trip_entity (id : string) (delays : list Z) : FeedEntity :=
  {| vehicle := None;
     trip_update := Some {| tu_trip_id := id;
                            stop_time_update :=
                              map (fun d => {| arrival_delay := d |}) delays |} |}.

(** Two buses. *)
Definition vehicles_feed : FeedMessage :=
  {| entity := [vehicle_entity bus_gold_coast; vehicle_entity bus_brisbane] |}.

(** One late trip; a second trip update without stop-time updates. *)
Definition trips_feed : FeedMessage :=
  {| entity := [trip_entity "T1" [400; 20]; trip_entity "T9" []] |}.

(** A feed with a header and no entity. *)
Definition empty_feed : FeedMessage := {| entity := [] |}.

(** Two trip updates for the same trip. *)
Definition repeated_trips_feed : FeedMessage :=
  {| entity := [trip_entity "T1" [400]; trip_entity "T1" [-90]] |}.

Definition payload_vehicles : bytes := [Byte.x01].
Definition payload_trips : bytes := [Byte.x02].
Definition payload_empty_feed : bytes := [Byte.x03].
Definition payload_repeated_trips : bytes := [Byte.x04].
Definition payload_malformed : bytes := [Byte.xff].

Definition sample_parse (content : bytes) : option FeedMessage :=
  match content with
  | Byte.x01 :: _ => Some vehicles_feed
  | Byte.x02 :: _ => Some trips_feed
  | Byte.x03 :: _ => Some empty_feed
  | Byte.x04 :: _ => Some repeated_trips_feed
  | _ => None
  end.

(** The sample formatter: one string for every timestamp [datetime] can
    hold, [ValueError] past the year 9999. *)
Definition sample_strftime (t : Z) : result string :=
  if (0 <=? t) && (t <=? 253402264799)
  then Returned "2023-11-15 08:13:20 AEST"
  else Raised ValueError.

(** The sample mean: the sum of the numbers of the column, left to right,
    over their count; [NaN] cells are skipped. *)
Definition sample_mean (column : list float) : float :=
  let numbers := filter (fun x => negb (PrimFloat.is_nan x)) column in
  PrimFloat.div (fold_left PrimFloat.add numbers 0%float)
                (fold_left (fun n _ => PrimFloat.add n 1%float) numbers 0%float).

(** The network during one call: the body served for each feed, [None] for a
    failed request. *)
Definition serve (vehicles trips : option bytes) (url : string) : option bytes :=
  if String.eqb url VEHICLE_POSITIONS_URL then vehicles
  else if String.eqb url TRIP_UPDATES_URL then trips
  else None.

Definition http_ok : string -> option bytes :=
  serve (Some payload_vehicles) (Some payload_trips).

Definition fresh_world : World := {| CACHE := CACHE_init; requested := [] |}.

(** 2023-11-14 22:13:20 UTC, in microseconds. *)
Definition t0 : Z := 1700000000 * 1000000.

(** The process after one refresh at [t0] that went through. *)
Definition warm_world : World :=
  snd (get_live_bus_data sample_parse sample_strftime t0 http_ok fresh_world).

(** Snapshot rows at given positions. *)
Definition bus_at (id : string) (la lo : float) : LiveRow :=
  {| veh := {| trip_id := "T1"; route_id := "700-3136"; vehicle_id := id;
               lat := la; lon := lo; stop_sequence := 7; stop_id := "300112";
               current_status := 2; timestamp := "N/A" |};
     delay := 0; status := "On Time"; route_name := "700";
     region := categorize_region la |}.

(** One vehicle at three positions. *)
Definition g101_here : LiveRow := bus_at "G101" (-28.0)%float 153.43%float.
Definition g101_north : LiveRow := bus_at "G101" (-27.95)%float 153.41%float.
Definition g101_south : LiveRow := bus_at "G101" (-28.1)%float 153.45%float.

(** A request for every region and route, without a status. *)
Definition args_all : list (string * string) := [("region", "All"); ("route", "All")].

(** The single-precision float nearest to -27.78, as a feed carries it. *)
Definition lat_27_78_single : float := (-0x1.bc7ae2p+4)%float.

End Samples.

(* ================================================================= *)
(** ** Facts about [sorted] and [unique] *)

Module SortFacts.
Import Py.

(** Strictly below in the order of [sorted]. *)
Definition string_lt (a b : string) : Prop := String.compare a b = Lt.

(** [out] lists the distinct values of the column [col] in increasing
    order: it is strictly increasing and holds the same values. *)
Definition sorted_distinct (col out : list string) : Prop :=
  StronglySorted string_lt out /\ forall x, In x out <-> In x col.

Lemma ascii_compare_lt_trans (a b c : ascii) :
  Ascii.compare a b = Lt -> Ascii.compare b c = Lt -> Ascii.compare a c = Lt.
Proof.
  unfold Ascii.compare. rewrite !N.compare_lt_iff. apply N.lt_trans.
Qed.

Lemma string_lt_trans (a b c : string) :
  string_lt a b -> string_lt b c -> string_lt a c.
Proof.
  unfold string_lt. revert b c.
  induction a as [|x a IH]; intros [|y b] [|z c]; simpl; try congruence.
  destruct (Ascii.compare x y) eqn:Hxy; try discriminate.
  - apply Ascii.compare_eq_iff in Hxy. subst y.
    destruct (Ascii.compare x z); try congruence. apply IH.
  - intros _. destruct (Ascii.compare y z) eqn:Hyz; try discriminate.
    + apply Ascii.compare_eq_iff in Hyz. subst z. now rewrite Hxy.
    + now rewrite (ascii_compare_lt_trans _ _ _ Hxy Hyz).
Qed.

Lemma string_lt_irrefl (a : string) : ~ string_lt a a.
Proof.
  unfold string_lt. intros H.
  pose proof (String.compare_antisym a a) as E. rewrite H in E. discriminate.
Qed.

Lemma leb_cases (a b : string) :
  String.leb a b = true <-> a = b \/ string_lt a b.
Proof.
  unfold String.leb, string_lt. split.
  - destruct (String.compare a b) eqn:E; try discriminate; auto.
    left. now apply String.compare_eq_iff.
  - intros [-> | ->]; [|reflexivity].
    destruct (String.compare b b) eqn:E; try reflexivity.
    exfalso. pose proof (String.compare_antisym b b) as A.
    rewrite E in A. discriminate.
Qed.

Lemma leb_transitive : Transitive (fun a b : string => is_true (String.leb a b)).
Proof.
  intros a b c Hab Hbc. unfold is_true in *.
  apply leb_cases in Hab. apply leb_cases in Hbc. apply leb_cases.
  destruct Hab as [-> |Hab]; [assumption|].
  destruct Hbc as [-> |Hbc]; [now right|].
  right. eapply string_lt_trans; eassumption.
Qed.

Lemma isin_In (x : string) (l : list string) : isin x l = true <-> In x l.
Proof.
  unfold isin. rewrite existsb_exists. split.
  - intros [y [Hy E]]. apply String.eqb_eq in E. now subst.
  - intros H. exists x. split; [assumption|apply String.eqb_refl].
Qed.

Lemma unique_from_In (seen l : list string) (x : string) :
  In x (unique_from seen l) <-> In x l /\ ~ In x seen.
Proof.
  revert seen. induction l as [|y l IH]; intros seen; simpl.
  - tauto.
  - destruct (existsb (String.eqb y) seen) eqn:E.
    + assert (Hy : In y seen) by now apply isin_In.
      rewrite IH. split.
      * intros [H1 H2]. auto.
      * intros [[-> |H1] H2]; [contradiction|auto].
    + assert (Hy : ~ In y seen).
      { intros H. apply isin_In in H. unfold isin in H. congruence. }
      simpl. rewrite IH. simpl. split.
      * intros [-> |[H1 H2]]; auto.
      * intros [[-> |H1] H2]; [now left|].
        destruct (string_dec y x) as [-> |N]; [now left|right].
        split; [assumption|]. intros [H|H]; contradiction.
Qed.

Lemma unique_from_NoDup (seen l : list string) : NoDup (unique_from seen l).
Proof.
  revert seen. induction l as [|y l IH]; intros seen; simpl.
  - constructor.
  - destruct (existsb (String.eqb y) seen); [apply IH|].
    constructor; [|apply IH].
    rewrite unique_from_In. intros [_ H]. apply H. now left.
Qed.

Lemma unique_In (l : list string) (x : string) : In x (unique l) <-> In x l.
Proof. unfold unique. rewrite unique_from_In. simpl. tauto. Qed.

Lemma unique_NoDup (l : list string) : NoDup (unique l).
Proof. apply unique_from_NoDup. Qed.

Lemma sorted_In (l : list string) (x : string) : In x (sorted l) <-> In x l.
Proof.
  unfold sorted. split; apply Permutation_in.
  - apply Permutation_sym, StringSort.Permuted_sort.
  - apply StringSort.Permuted_sort.
Qed.

Lemma strict_of_NoDup (l : list string) :
  StronglySorted (fun a b => is_true (String.leb a b)) l -> NoDup l ->
  StronglySorted string_lt l.
Proof.
  induction 1 as [|a l Hs IH Hall]; intros Hnd; constructor.
  - apply IH. now inversion Hnd.
  - inversion Hnd as [|? ? Hnotin _]; subst.
    rewrite Forall_forall in *. intros y Hy.
    destruct (proj1 (leb_cases a y) (Hall y Hy)) as [-> |H]; [contradiction|assumption].
Qed.

(** [sorted(col.unique().tolist())] is the increasing list of the distinct
    values of the column. *)
Lemma sorted_unique_spec (col : list string) :
  sorted_distinct col (sorted (unique col)).
Proof.
  split.
  - apply strict_of_NoDup.
    + apply StringSort.StronglySorted_sort. exact leb_transitive.
    + eapply Permutation_NoDup; [apply StringSort.Permuted_sort|apply unique_NoDup].
  - intros x. rewrite sorted_In. apply unique_In.
Qed.

(** A strictly increasing list with given values is unique, so
    [sorted_distinct] determines its second argument. *)
Lemma sorted_distinct_unique (col l1 l2 : list string) :
  sorted_distinct col l1 -> sorted_distinct col l2 -> l1 = l2.
Proof.
  intros [S1 I1] [S2 I2].
  assert (E : forall x, In x l1 <-> In x l2) by (intros x; rewrite I1, I2; tauto).
  clear I1 I2 col. revert l2 S2 E.
  induction S1 as [|a l1 S1 IH F1]; intros l2 S2 E.
  - destruct l2 as [|b l2]; [reflexivity|].
    exfalso. apply (E b). now left.
  - destruct S2 as [|b l2 S2 F2].
    + exfalso. apply (E a). now left.
    + rewrite Forall_forall in F1, F2.
      assert (a = b).
      { destruct (proj1 (E a) (or_introl eq_refl)) as [-> |Ha]; [reflexivity|].
        destruct (proj2 (E b) (or_introl eq_refl)) as [-> |Hb]; [reflexivity|].
        exfalso. apply (string_lt_irrefl a).
        eapply string_lt_trans; [apply F1, Hb|apply F2, Ha]. }
      subst b. f_equal. apply IH; [assumption|].
      intros x. split; intros Hx.
      * destruct (proj1 (E x) (or_intror Hx)) as [<- |H]; [|assumption].
        exfalso. apply (string_lt_irrefl a), F1, Hx.
      * destruct (proj2 (E x) (or_intror Hx)) as [<- |H]; [|assumption].
        exfalso. apply (string_lt_irrefl a), F2, Hx.
Qed.

End SortFacts.

(* ================================================================= *)
(** ** The refresh cache *)

Module RefreshFacts.
Import Py Feed FlaskApp.

(** One second, in the unit of the clock. *)
Definition second : Z := 1000000.

(** The cache is out of its window at [now]: never refreshed, or refreshed
    sixty seconds ago or more. *)
Definition stale (c : Cache) (now : Z) : Prop :=
  match last_refreshed c with
  | Some t => 60 * second <= now - t
  | None => True
  end.

(** A request for one of the feeds failed or brought an empty body. *)
Definition fetch_failed (http : string -> option bytes) : Prop :=
  truthy (http VEHICLE_POSITIONS_URL) = false \/
  truthy (http TRIP_UPDATES_URL) = false.

(** The world after one refresh attempt that left the cache alone. *)
Definition after_attempt (w : World) : World :=
  {| CACHE := CACHE w;
     requested := requested w ++ [VEHICLE_POSITIONS_URL; TRIP_UPDATES_URL] |}.

(** What a call gives back when it serves the cache as it is. *)
Definition served_from_cache (c : Cache) (now : Z) : result (list LiveRow * Z) :=
  Returned (data c, or_else (last_refreshed c) now).

(** The left join as the rows it makes of one vehicle record. *)
Definition merged_rows (updates_df : list UpdateRow) (v : VehicleRow) : list LiveRow :=
  map live_row (join_row v updates_df).

Section WithDecoder.

Variable ParseFromString : bytes -> option FeedMessage.
Variable strftime : Z -> result string.

Local Abbreviation get_live := (get_live_bus_data ParseFromString strftime).
Local Abbreviation vehicles_of := (vehicle_rows strftime).

(** Both bodies arrived and decode to the feeds [fv] and [ft]. *)
Definition feeds_decode (http : string -> option bytes) (fv ft : FeedMessage) : Prop :=
  truthy (http VEHICLE_POSITIONS_URL) = true /\
  truthy (http TRIP_UPDATES_URL) = true /\
  ParseFromString (content_of (http VEHICLE_POSITIONS_URL)) = Some fv /\
  ParseFromString (content_of (http TRIP_UPDATES_URL)) = Some ft.

(** Both bodies arrived and the decoder fails: on the vehicle payload, or on
    the trip-update payload once the vehicle frame is built. *)
Definition decode_fails (http : string -> option bytes) : Prop :=
  truthy (http VEHICLE_POSITIONS_URL) = true /\
  truthy (http TRIP_UPDATES_URL) = true /\
  (ParseFromString (content_of (http VEHICLE_POSITIONS_URL)) = None \/
   ((exists fv vehicles_df,
       ParseFromString (content_of (http VEHICLE_POSITIONS_URL)) = Some fv
       /\ vehicles_of fv = Returned vehicles_df)
    /\ ParseFromString (content_of (http TRIP_UPDATES_URL)) = None)).

(** Both bodies arrived, the vehicle payload decodes and a timestamp of it
    cannot be formatted. *)
Definition timestamp_fails (http : string -> option bytes) (e : exn) : Prop :=
  truthy (http VEHICLE_POSITIONS_URL) = true /\
  truthy (http TRIP_UPDATES_URL) = true /\
  exists fv,
    ParseFromString (content_of (http VEHICLE_POSITIONS_URL)) = Some fv
    /\ vehicles_of fv = Raised e.

Ltac run_monad :=
  unfold get_live_bus_data, refresh, fetch_gtfs_rt, parse_vehicle_positions,
    parse_trip_updates, decode, build_live_data, bind, ret, raise, lift,
    get_cache, set_cache, log_request; simpl.

Lemma fresh_call (w : World) (t now : Z) (http : string -> option bytes) :
  last_refreshed (CACHE w) = Some t -> now - t < 60 * second ->
  get_live now http w = (Returned (data (CACHE w), t), w).
Proof.
  intros Ht Hlt. run_monad. rewrite Ht.
  unfold total_seconds_lt, REFRESH_INTERVAL_SECONDS.
  unfold second in Hlt.
  destruct (Z.ltb_spec (now - t) (60 * 1000000)); [reflexivity|lia].
Qed.

Lemma stale_call (w : World) (now : Z) (http : string -> option bytes) :
  stale (CACHE w) now ->
  get_live now http w = refresh ParseFromString strftime (CACHE w) now http w.
Proof.
  unfold stale, second. intros Hs.
  unfold get_live_bus_data, bind, get_cache.
  destruct (last_refreshed (CACHE w)) as [t|]; [|reflexivity].
  unfold total_seconds_lt, REFRESH_INTERVAL_SECONDS.
  destruct (Z.ltb_spec (now - t) (60 * 1000000)); [lia|reflexivity].
Qed.

Lemma app_two (l : list string) (a b : string) : (l ++ [a]) ++ [b] = l ++ [a; b].
Proof. now rewrite <- app_assoc. Qed.

Lemma refresh_fetch_failed (w : World) (now : Z) (http : string -> option bytes) :
  fetch_failed http ->
  refresh ParseFromString strftime (CACHE w) now http w
  = (served_from_cache (CACHE w) now, after_attempt w).
Proof.
  intros Hf. run_monad. rewrite app_two.
  assert (E : negb (truthy (http VEHICLE_POSITIONS_URL))
              || negb (truthy (http TRIP_UPDATES_URL)) = true).
  { destruct Hf as [-> | ->]; simpl; [reflexivity|apply orb_true_r]. }
  rewrite E. reflexivity.
Qed.

Lemma refresh_no_vehicles (w : World) (now : Z) (http : string -> option bytes)
  (fv ft : FeedMessage) :
  feeds_decode http fv ft -> vehicles_of fv = Returned [] ->
  refresh ParseFromString strftime (CACHE w) now http w
  = (served_from_cache (CACHE w) now, after_attempt w).
Proof.
  intros (Hv & Ht & Pv & Pt) He. run_monad. rewrite app_two.
  rewrite Hv, Ht, Pv, Pt. simpl. rewrite He. reflexivity.
Qed.

Lemma refresh_timestamp_fails (w : World) (now : Z) (http : string -> option bytes)
  (e : exn) :
  timestamp_fails http e ->
  refresh ParseFromString strftime (CACHE w) now http w
  = (Raised e, after_attempt w).
Proof.
  intros (Hv & Ht & fv & Pv & He). run_monad. rewrite app_two.
  rewrite Hv, Ht, Pv. simpl. rewrite He. reflexivity.
Qed.

Lemma refresh_decode_fails (w : World) (now : Z) (http : string -> option bytes) :
  decode_fails http ->
  refresh ParseFromString strftime (CACHE w) now http w
  = (Raised DecodeError, after_attempt w).
Proof.
  intros (Hv & Ht & Hp). run_monad. rewrite app_two. rewrite Hv, Ht. simpl.
  destruct Hp as [Pv | [(fv & vs & Pv & Ev) Pt]].
  - now rewrite Pv.
  - rewrite Pv. simpl. rewrite Ev, Pt. reflexivity.
Qed.

Lemma refresh_no_updates (w : World) (now : Z) (http : string -> option bytes)
  (fv ft : FeedMessage) (vehicles_df : list VehicleRow) :
  feeds_decode http fv ft ->
  vehicles_of fv = Returned vehicles_df -> vehicles_df <> [] ->
  trip_update_rows ft = [] ->
  refresh ParseFromString strftime (CACHE w) now http w
  = (Raised (KeyError "trip_id"), after_attempt w).
Proof.
  intros (Hv & Ht & Pv & Pt) Ev Hne He. run_monad. rewrite app_two.
  rewrite Hv, Ht, Pv, Pt. simpl. rewrite Ev, He.
  destruct vehicles_df; [congruence|reflexivity].
Qed.

(** The refresh that goes through: the snapshot is the join, the cache holds
    it with the time of the call, and the old snapshot moves to
    [previous_data]. *)
Lemma refresh_succeeds (w : World) (now : Z) (http : string -> option bytes)
  (fv ft : FeedMessage) (vehicles_df : list VehicleRow) :
  feeds_decode http fv ft ->
  vehicles_of fv = Returned vehicles_df -> vehicles_df <> [] ->
  trip_update_rows ft <> [] ->
  let live := flat_map (merged_rows (trip_update_rows ft)) vehicles_df in
  refresh ParseFromString strftime (CACHE w) now http w
  = (Returned (live, now),
     {| CACHE := {| data := live; last_refreshed := Some now;
                    previous_data := data (CACHE w) |};
        requested := requested w ++ [VEHICLE_POSITIONS_URL; TRIP_UPDATES_URL] |}).
Proof.
  intros (Hv & Ht & Pv & Pt) Ev Hne Hu live. run_monad. rewrite app_two.
  rewrite Hv, Ht, Pv, Pt. simpl. rewrite Ev.
  destruct vehicles_df as [|v vs]; [congruence|]. simpl.
  unfold merge_left_on_trip_id.
  destruct (trip_update_rows ft) as [|u us] eqn:Eu; [congruence|].
  assert (El : map live_row (flat_map (fun v0 => join_row v0 (u :: us)) (v :: vs)) = live).
  { subst live. unfold merged_rows. generalize (v :: vs) as l.
    induction l as [|x l IH]; [reflexivity|].
    cbn [flat_map]. rewrite map_app. now rewrite IH. }
  rewrite El. reflexivity.
Qed.

(** Every refresh attempt requests each feed once, whatever comes of it. *)
Lemma refresh_requests (c : Cache) (w : World) (now : Z) (http : string -> option bytes) :
  requested (snd (refresh ParseFromString strftime c now http w))
  = requested w ++ [VEHICLE_POSITIONS_URL; TRIP_UPDATES_URL].
Proof.
  run_monad. rewrite app_two.
  destruct (negb (truthy (http VEHICLE_POSITIONS_URL))
            || negb (truthy (http TRIP_UPDATES_URL))); [reflexivity|].
  destruct (ParseFromString (content_of (http VEHICLE_POSITIONS_URL))); [|reflexivity].
  simpl. destruct (vehicles_of _); [|reflexivity].
  destruct (ParseFromString (content_of (http TRIP_UPDATES_URL))); [|reflexivity].
  simpl. destruct (empty _); [reflexivity|].
  destruct (merge_left_on_trip_id _ _); reflexivity.
Qed.

End WithDecoder.

End RefreshFacts.

(* ================================================================= *)
(** ** Properties of the refresh cache and of the merge *)

Section RefreshClaims.
Import Py Feed FlaskApp RefreshFacts Samples.

Variable ParseFromString : bytes -> option FeedMessage.
Variable strftime : Z -> result string.

Local Abbreviation get_live := (get_live_bus_data ParseFromString strftime).
Local Abbreviation vehicles_of := (vehicle_rows strftime).

Lemma fresh_or_stale (c : Cache) (now : Z) :
  (exists t, last_refreshed c = Some t /\ now - t < 60 * second) \/ stale c now.
Proof.
  unfold stale. destruct (last_refreshed c) as [t|]; [|now right].
  destruct (Z_lt_le_dec (now - t) (60 * second)); [left; eauto|now right].
Qed.

Lemma stale_later (c : Cache) (now now' : Z) :
  stale c now -> now <= now' -> stale c now'.
Proof.
  unfold stale. destruct (last_refreshed c); [lia|trivial].
Qed.

(** C2.  Once a refresh has gone through at time [t], every call made less
    than sixty seconds after [t] gives back the cached snapshot with [t] and
    leaves the process as it was: the cache is untouched and no feed is
    requested.  So two calls in the window give the same snapshot and
    timestamp.  A call made sixty seconds after [t] or later makes one
    refresh attempt: each feed is requested once. *)
Theorem cache_window (w : World) (t : Z) :
  last_refreshed (CACHE w) = Some t ->
  (forall now http, now - t < 60 * second ->
     get_live now http w = (Returned (data (CACHE w), t), w))
  /\ (forall now1 http1 now2 http2,
        now1 - t < 60 * second -> now2 - t < 60 * second ->
        let (r1, w1) := get_live now1 http1 w in
        let (r2, w2) := get_live now2 http2 w1 in
        r1 = Returned (data (CACHE w), t) /\ r2 = r1 /\
        requested w2 = requested w /\ CACHE w2 = CACHE w)
  /\ (forall now http, 60 * second <= now - t ->
        requested (snd (get_live now http w))
        = requested w ++ [VEHICLE_POSITIONS_URL; TRIP_UPDATES_URL]).
Proof.
  intros Ht. repeat split.
  - intros now http Hlt. now apply fresh_call.
  - intros now1 http1 now2 http2 H1 H2.
    rewrite (fresh_call _ _ w t now1 http1 Ht H1).
    rewrite (fresh_call _ _ w t now2 http2 Ht H2). auto.
  - intros now http Hge. rewrite stale_call.
    + apply refresh_requests.
    + unfold stale. now rewrite Ht.
Qed.

(** C3, as amended.  A refresh attempt in which a fetch fails, or in which
    both payloads decode and no vehicle is decoded, gives back the cached
    snapshot with the time of the last refresh that went through, or with the
    time of the call when there was none; the three fields of the cache are
    as before.  The time of the last refresh is not moved, so the next call
    makes a refresh attempt again. *)
Theorem failed_refresh_keeps_cache (w : World) (now : Z)
  (http : string -> option bytes) :
  stale (CACHE w) now ->
  fetch_failed http \/
    (exists fv ft, feeds_decode ParseFromString http fv ft
                   /\ vehicles_of fv = Returned []) ->
  let (r, w') := get_live now http w in
  r = Returned (data (CACHE w),
                match last_refreshed (CACHE w) with Some t => t | None => now end)
  /\ data (CACHE w') = data (CACHE w)
  /\ previous_data (CACHE w') = previous_data (CACHE w)
  /\ last_refreshed (CACHE w') = last_refreshed (CACHE w)
  /\ forall now' http', now <= now' ->
       requested (snd (get_live now' http' w'))
       = requested w' ++ [VEHICLE_POSITIONS_URL; TRIP_UPDATES_URL].
Proof.
  intros Hs Hfail.
  assert (E : get_live now http w = (served_from_cache (CACHE w) now, after_attempt w)).
  { rewrite stale_call by assumption.
    destruct Hfail as [Hf | (fv & ft & Hd & He)].
    - now apply refresh_fetch_failed.
    - now apply (refresh_no_vehicles _ _ w now http fv ft). }
  rewrite E. repeat split.
  intros now' http' Hle. rewrite stale_call.
  - apply refresh_requests.
  - simpl. eapply stale_later; eassumption.
Qed.

(** C6, as amended.  A call gives back the cached snapshot and timestamp,
    and raises nothing, when a fetch fails and when both payloads decode and
    no vehicle is decoded.  A refresh attempt in which both bodies arrived
    and the decoder fails, on the vehicle payload or on the trip-update
    payload, raises the decoder's error to the caller; one in which the
    vehicle payload decodes and a timestamp of it cannot be formatted raises
    the formatter's error, before the trip-update payload is looked at.  The
    cache is as before in both cases. *)
Theorem fail_soft_except_decoding (w : World) (now : Z)
  (http : string -> option bytes) :
  (fetch_failed http \/
     (exists fv ft, feeds_decode ParseFromString http fv ft
                    /\ vehicles_of fv = Returned []) ->
   exists w', get_live now http w = (served_from_cache (CACHE w) now, w')
              /\ CACHE w' = CACHE w)
  /\ (stale (CACHE w) now -> decode_fails ParseFromString strftime http ->
      get_live now http w = (Raised DecodeError, after_attempt w))
  /\ (forall e, stale (CACHE w) now ->
        timestamp_fails ParseFromString strftime http e ->
        get_live now http w = (Raised e, after_attempt w)).
Proof.
  split; [|split].
  - intros Hfail. destruct (fresh_or_stale (CACHE w) now) as [(t & Ht & Hlt) | Hs].
    + exists w. rewrite (fresh_call _ _ w t now http Ht Hlt).
      unfold served_from_cache. rewrite Ht. auto.
    + exists (after_attempt w). split; [|reflexivity].
      rewrite stale_call by assumption.
      destruct Hfail as [Hf | (fv & ft & Hd & He)].
      * now apply refresh_fetch_failed.
      * now apply (refresh_no_vehicles _ _ w now http fv ft).
  - intros Hs Hd. rewrite stale_call by assumption.
    now apply refresh_decode_fails.
  - intros e Hs Hd. rewrite stale_call by assumption.
    now apply refresh_timestamp_fails.
Qed.

(** C7, at the input on which the code departs from it.  A refresh attempt
    in which both payloads decode, a vehicle is decoded and no trip update
    with a stop-time update is, raises [KeyError] out of the merge: nothing is
    returned and the cache is not updated. *)
Theorem refresh_without_trip_updates_raises (w : World) (now : Z)
  (http : string -> option bytes) (fv ft : FeedMessage)
  (vehicles_df : list VehicleRow) :
  stale (CACHE w) now ->
  feeds_decode ParseFromString http fv ft ->
  vehicles_of fv = Returned vehicles_df -> vehicles_df <> [] ->
  trip_update_rows ft = [] ->
  get_live now http w = (Raised (KeyError "trip_id"), after_attempt w)
  /\ CACHE (after_attempt w) = CACHE w.
Proof.
  intros Hs Hd Ev Hv Hu. split; [|reflexivity].
  rewrite stale_call by assumption.
  now apply (refresh_no_updates _ _ w now http fv ft vehicles_df).
Qed.

(** A refresh with decoded vehicles and decoded trip updates goes through:
    the old snapshot becomes the previous one, the join becomes the current
    one, the time of the call is recorded, and both are returned. *)
Lemma refresh_swaps_snapshots (w : World) (now : Z)
  (http : string -> option bytes) (fv ft : FeedMessage)
  (vehicles_df : list VehicleRow) :
  stale (CACHE w) now ->
  feeds_decode ParseFromString http fv ft ->
  vehicles_of fv = Returned vehicles_df -> vehicles_df <> [] ->
  trip_update_rows ft <> [] ->
  exists live w',
    get_live now http w = (Returned (live, now), w')
    /\ live = flat_map (merged_rows (trip_update_rows ft)) vehicles_df
    /\ data (CACHE w') = live
    /\ previous_data (CACHE w') = data (CACHE w)
    /\ last_refreshed (CACHE w') = Some now.
Proof.
  intros Hs Hd Ev Hv Hu. rewrite stale_call by assumption.
  rewrite (refresh_succeeds _ _ w now http fv ft vehicles_df Hd Ev Hv Hu).
  eexists _, _. split; [reflexivity|]. simpl. auto.
Qed.

End RefreshClaims.

(* ================================================================= *)
(** ** The merge is a left join *)

Section MergeClaims.
Import Py Feed FlaskApp RefreshFacts Samples.

Lemma matches_In (v : VehicleRow) (updates_df : list UpdateRow) (u : UpdateRow) :
  In u (matches v updates_df) <-> In u updates_df /\ u_trip_id u = trip_id v.
Proof.
  unfold matches. rewrite filter_In. now rewrite String.eqb_eq.
Qed.

Lemma matches_nil (v : VehicleRow) (updates_df : list UpdateRow) :
  (forall u, In u updates_df -> u_trip_id u <> trip_id v) ->
  matches v updates_df = [].
Proof.
  intros H. destruct (matches v updates_df) as [|u ms] eqn:E; [reflexivity|].
  assert (Hu : In u (matches v updates_df)) by (rewrite E; now left).
  apply matches_In in Hu. destruct Hu as [Hin Heq]. now apply H in Hin.
Qed.

(** With pairwise distinct keys on the right, a left row has at most one
    match. *)
Lemma matches_distinct_keys (v : VehicleRow) (updates_df : list UpdateRow) :
  NoDup (map u_trip_id updates_df) ->
  matches v updates_df = [] \/ exists u, matches v updates_df = [u].
Proof.
  induction updates_df as [|u us IH]; intros Hnd; [now left|].
  inversion Hnd as [|? ? Hnotin Hnd']; subst.
  unfold matches. simpl.
  destruct (String.eqb_spec (u_trip_id u) (trip_id v)) as [E|N].
  - right. exists u. f_equal. apply matches_nil.
    intros u' Hin Heq. apply Hnotin. rewrite E, <- Heq. now apply in_map.
  - now apply IH.
Qed.

Lemma merged_rows_vehicle (updates_df : list UpdateRow) (v : VehicleRow) :
  Forall (fun r => veh r = v
                   /\ route_name r = split_first "-"%char (route_id v)
                   /\ region r = categorize_region (lat v))
    (merged_rows updates_df v).
Proof.
  unfold merged_rows, join_row.
  destruct (matches v updates_df) as [|u ms]; simpl.
  - repeat constructor.
  - constructor; [now repeat split|].
    rewrite map_map. apply Forall_forall. intros r Hr.
    apply in_map_iff in Hr. destruct Hr as [u' [<- _]]. now repeat split.
Qed.

Lemma merged_rows_unmatched (updates_df : list UpdateRow) (v : VehicleRow) :
  (forall u, In u updates_df -> u_trip_id u <> trip_id v) ->
  merged_rows updates_df v
  = [ {| veh := v; delay := 0; status := "On Time";
         route_name := split_first "-"%char (route_id v);
         region := categorize_region (lat v) |} ].
Proof.
  intros H. unfold merged_rows, join_row. now rewrite matches_nil.
Qed.

Lemma merged_rows_matched (updates_df : list UpdateRow) (v : VehicleRow) :
  matches v updates_df <> [] ->
  map (fun r => (veh r, delay r, status r)) (merged_rows updates_df v)
  = map (fun u => (v, u_delay u, u_status u)) (matches v updates_df).
Proof.
  intros H. unfold merged_rows, join_row.
  destruct (matches v updates_df) as [|u ms]; [congruence|].
  simpl. f_equal. rewrite !map_map. reflexivity.
Qed.

Lemma merged_once (updates_df : list UpdateRow) (vehicles_df : list VehicleRow) :
  NoDup (map u_trip_id updates_df) ->
  map veh (flat_map (merged_rows updates_df) vehicles_df) = vehicles_df.
Proof.
  intros Hnd. induction vehicles_df as [|v vs IH]; [reflexivity|].
  cbn [flat_map]. rewrite map_app, IH. unfold merged_rows, join_row.
  destruct (matches_distinct_keys v updates_df Hnd) as [-> | [u ->]]; reflexivity.
Qed.

Variable ParseFromString : bytes -> option FeedMessage.
Variable strftime : Z -> result string.

(** C1, as amended.  After a refresh in which vehicles and trip updates were
    decoded, the snapshot is the left join of the vehicle records with the
    trip-update records on [trip_id]: it is made of one block of rows per
    vehicle record, in feed order; the rows of a block carry that vehicle
    record; the block of a record no trip update matches is a single row
    with delay 0 and status On Time; the block of a matched record has one
    row per matching trip update, in order, with its delay and status.  When
    no two trip updates share a [trip_id], every vehicle record appears
    exactly once.  The vehicle records are those of the frame
    [parse_vehicle_positions] returned: the timestamps of the feed could be
    formatted. *)
Theorem merge_is_left_join (w : World) (now : Z)
  (http : string -> option bytes) (fv ft : FeedMessage)
  (vehicles_df : list VehicleRow) :
  stale (CACHE w) now ->
  feeds_decode ParseFromString http fv ft ->
  vehicle_rows strftime fv = Returned vehicles_df -> vehicles_df <> [] ->
  trip_update_rows ft <> [] ->
  let updates_df := trip_update_rows ft in
  exists live w',
    get_live_bus_data ParseFromString strftime now http w = (Returned (live, now), w')
    /\ live = flat_map (merged_rows updates_df) vehicles_df
    /\ (forall v, Forall (fun r => veh r = v) (merged_rows updates_df v))
    /\ (forall v, (forall u, In u updates_df -> u_trip_id u <> trip_id v) ->
          exists r, merged_rows updates_df v = [r]
                    /\ veh r = v /\ delay r = 0 /\ status r = "On Time")
    /\ (forall v, (exists u, In u updates_df /\ u_trip_id u = trip_id v) ->
          map (fun r => (veh r, delay r, status r)) (merged_rows updates_df v)
          = map (fun u => (v, u_delay u, u_status u))
              (filter (fun u => String.eqb (u_trip_id u) (trip_id v)) updates_df))
    /\ (NoDup (map u_trip_id updates_df) -> map veh live = vehicles_df).
Proof.
  intros Hs Hd Ev Hv Hu updates_df.
  destruct (refresh_swaps_snapshots _ _ w now http fv ft vehicles_df Hs Hd Ev Hv Hu)
    as (live & w' & E & Hl & _).
  exists live, w'. split; [exact E|]. split; [exact Hl|].
  split; [|split; [|split]].
  - intros v. eapply Forall_impl; [|apply merged_rows_vehicle]. now intros r [H _].
  - intros v Hno. eexists. split; [now apply merged_rows_unmatched|]. now repeat split.
  - intros v (u & Hin & Heq). apply merged_rows_matched.
    intros Hnil. apply (in_nil (a := u)). rewrite <- Hnil. now apply matches_In.
  - intros Hnd. rewrite Hl. now apply merged_once.
Qed.

End MergeClaims.

(* ================================================================= *)
(** ** Status and region classification *)

Section Classification.
Import Py Feed FlaskApp.

(** [lo <= x <= hi] on floats. *)
Definition within (lo hi x : float) : Prop :=
  PrimFloat.leb lo x = true /\ PrimFloat.leb x hi = true.

Lemma within_dec (lo hi x : float) :
  PrimFloat.leb lo x && PrimFloat.leb x hi = true <-> within lo hi x.
Proof. unfold within. apply andb_true_iff. Qed.

(** C4.  A trip update whose first stop-time update has delay [d] gives one
    record with that delay, whatever the later stop-time updates are, and its
    status is Delayed exactly when [d > 300], Early exactly when [d < -60] and
    On Time otherwise; 300 and -60 are On Time. *)
Theorem status_by_delay (d : Z) (id : string) (v : option VehiclePosition)
  (later : list StopTimeUpdate) :
  update_rows
    {| vehicle := v;
       trip_update := Some {| tu_trip_id := id;
                              stop_time_update := {| arrival_delay := d |} :: later |} |}
  = [ {| u_trip_id := id; u_delay := d; u_status := delay_status d |} ]
  /\ (delay_status d = "Delayed" <-> d > 300)
  /\ (delay_status d = "Early" <-> d < -60)
  /\ (delay_status d = "On Time" <-> -60 <= d <= 300)
  /\ delay_status 300 = "On Time"
  /\ delay_status (-60) = "On Time".
Proof.
  split; [reflexivity|].
  unfold delay_status.
  destruct (Z.gtb_spec d 300) as [Hgt|Hle];
    [|destruct (Z.ltb_spec d (-60)) as [Hlt|Hge]];
    repeat split; intros; first [reflexivity | lia | discriminate].
Qed.

(** C5.  The region of a latitude is that of the first bucket that holds it,
    in the order Brisbane, Gold Coast, Sunshine Coast, and Other when none
    does; -27.75 is in Brisbane and -27.78 in Gold Coast, as a double and as
    the single-precision value a feed carries.  The region of a
    snapshot row is computed from its latitude alone: two rows at the same
    latitude have the same region, whatever their longitudes. *)
Theorem region_by_declared_order (x : float) :
  (within (-27.75) (-27.0) x -> categorize_region x = "Brisbane")
  /\ (~ within (-27.75) (-27.0) x -> within (-28.2) (-27.78) x ->
      categorize_region x = "Gold Coast")
  /\ (~ within (-27.75) (-27.0) x -> ~ within (-28.2) (-27.78) x ->
      within (-26.9) (-26.3) x -> categorize_region x = "Sunshine Coast")
  /\ (~ within (-27.75) (-27.0) x -> ~ within (-28.2) (-27.78) x ->
      ~ within (-26.9) (-26.3) x -> categorize_region x = "Other")
  /\ categorize_region (-27.75) = "Brisbane"
  /\ categorize_region (-27.78) = "Gold Coast"
  /\ categorize_region Samples.lat_27_78_single = "Gold Coast"
  /\ (forall j : JoinedRow, region (live_row j) = categorize_region (lat (j_vehicle j)))
  /\ (forall j1 j2 : JoinedRow,
        lat (j_vehicle j1) = lat (j_vehicle j2) ->
        region (live_row j1) = region (live_row j2)).
Proof.
  unfold categorize_region.
  destruct (PrimFloat.leb (-27.75) x && PrimFloat.leb x (-27.0)) eqn:B;
  destruct (PrimFloat.leb (-28.2) x && PrimFloat.leb x (-27.78)) eqn:G;
  destruct (PrimFloat.leb (-26.9) x && PrimFloat.leb x (-26.3)) eqn:S;
  repeat match goal with
         | H : _ && _ = true |- _ => apply within_dec in H
         | H : _ && _ = false |- _ =>
             apply not_true_iff_false in H; rewrite within_dec in H
         end;
  repeat split; try reflexivity; try (intros; reflexivity);
    try (intros; contradiction); try (intros; simpl; congruence).
Qed.

End Classification.

(* ================================================================= *)
(** ** The page: option lists, default statuses, movement paths *)

Module ViewFacts.
Import Py Feed FlaskApp SortFacts.

(** The row passes the region filter, the route filter. *)
Definition in_region (selected_region : string) (r : LiveRow) : Prop :=
  selected_region = "All" \/ region r = selected_region.

Definition on_route (selected_route : string) (r : LiveRow) : Prop :=
  selected_route = "All" \/ route_name r = selected_route.

(** [out] lists in increasing order, each once, the values of the column
    [col] over the rows of [df] that satisfy [keep]. *)
Definition distinct_values (keep : LiveRow -> Prop) (col : LiveRow -> string)
  (df : list LiveRow) (out : list string) : Prop :=
  StronglySorted string_lt out /\
  forall x, In x out <-> exists r, In r df /\ keep r /\ col r = x.

(** The path from the position of [p] to the position of [r]. *)
Definition segment (p r : LiveRow) : AntPath :=
  {| path_from := (row_lat p, row_lon p); path_to := (row_lat r, row_lon r) |}.

(** [p] and [r] are at equal coordinates ([==] on both). *)
Definition same_position (p r : LiveRow) : Prop :=
  PrimFloat.eqb (row_lat r) (row_lat p) = true /\
  PrimFloat.eqb (row_lon r) (row_lon p) = true.

(** The float is a number, the row is at a position made of numbers. *)
Definition is_number (x : float) : bool := negb (PrimFloat.is_nan x).

Definition located (r : LiveRow) : bool :=
  is_number (row_lat r) && is_number (row_lon r).

(** The segments owed to the row [r] of the filtered view for the row [p] of
    the previous snapshot: one from [p] to [r] when both are at positions
    made of numbers and the positions differ, none otherwise. *)
Definition pair_segments (r p : LiveRow) : list AntPath :=
  if located r && located p
     && (float_ne (row_lat r) (row_lat p) || float_ne (row_lon r) (row_lon p))
  then [segment p r]
  else [].

(** The segments owed to [r] for the rows of the previous snapshot with its
    vehicle id, in their order. *)
Definition segments_for (previous_df : list LiveRow) (r : LiveRow) : list AntPath :=
  flat_map (pair_segments r) (prev_matches r previous_df).

(** The path line 163 asks folium for on a row, and the marker line 167 asks
    for. *)
Definition requested_paths (v : ViewRow) : list AntPath :=
  if moved v
  then [ {| path_from := (cell_value (lat_prev v), cell_value (lon_prev v));
            path_to := (row_lat (row v), row_lon (row v)) |} ]
  else [].

Definition marker_of (v : ViewRow) : Marker :=
  {| location := (row_lat (row v), row_lon (row v));
     color := marker_color (status (row v)) |}.

(** folium accepts what the loop asks for on the row: its position is made of
    numbers, and so is the previous longitude when a path is asked for. *)
Definition drawable (v : ViewRow) : Prop :=
  located (row v) = true
  /\ (moved v = true -> PrimFloat.is_nan (cell_value (lon_prev v)) = false).

Lemma df_for_route_options_In (master_df : list LiveRow) (reg : string) (r : LiveRow) :
  In r (df_for_route_options master_df reg) <-> In r master_df /\ in_region reg r.
Proof.
  unfold df_for_route_options, in_region.
  destruct (String.eqb_spec reg "All") as [E|N]; simpl.
  - tauto.
  - rewrite filter_In, String.eqb_eq. tauto.
Qed.

Lemma df_for_status_options_In (master_df : list LiveRow) (reg route : string)
  (r : LiveRow) :
  In r (df_for_status_options master_df reg route)
  <-> In r master_df /\ in_region reg r /\ on_route route r.
Proof.
  unfold df_for_status_options, on_route.
  destruct (String.eqb_spec route "All") as [E|N]; simpl.
  - rewrite df_for_route_options_In. tauto.
  - rewrite filter_In, String.eqb_eq, df_for_route_options_In. tauto.
Qed.

Lemma df_for_vehicle_options_In (master_df : list LiveRow) (reg route : string)
  (chosen : list string) (r : LiveRow) :
  In r (df_for_vehicle_options master_df reg route chosen)
  <-> In r master_df /\ in_region reg r /\ on_route route r /\ In (status r) chosen.
Proof.
  unfold df_for_vehicle_options.
  rewrite filter_In, isin_In, df_for_status_options_In. tauto.
Qed.

Lemma distinct_values_of_column (keep : LiveRow -> Prop) (col : LiveRow -> string)
  (df sub : list LiveRow) :
  (forall r, In r sub <-> In r df /\ keep r) ->
  distinct_values keep col df (sorted (unique (map col sub))).
Proof.
  intros Hsub. destruct (sorted_unique_spec (map col sub)) as [Hs Hin].
  split; [exact Hs|]. intros x. rewrite Hin, in_map_iff. split.
  - intros (r & E & Hr). apply Hsub in Hr. exists r. tauto.
  - intros (r & Hr & Hk & E). exists r. split; [exact E|]. apply Hsub. tauto.
Qed.

Lemma args_getlist_absent (args : list (string * string)) (key : string) :
  (forall v, ~ In (key, v) args) -> args_getlist args key = [].
Proof.
  intros H. unfold args_getlist.
  induction args as [|[k v] rest IH]; [reflexivity|]. simpl.
  destruct (String.eqb_spec k key) as [E|N].
  - exfalso. apply (H v). left. now rewrite E.
  - apply IH. intros v' Hin. apply (H v'). now right.
Qed.

Lemma with_previous_rows (filtered_df previous_df : list LiveRow) (r : LiveRow) :
  In r filtered_df -> In r (map row (with_previous filtered_df previous_df)).
Proof.
  intros Hr. unfold with_previous. apply in_map_iff.
  destruct (negb (empty previous_df)).
  - unfold join_prev.
    destruct (prev_matches r previous_df) as [|p ps] eqn:E.
    + exists (no_prev r). split; [reflexivity|].
      apply in_flat_map. exists r. split; [assumption|]. rewrite E. now left.
    + eexists. split; [|apply in_flat_map; exists r; split; [assumption|]].
      2: { rewrite E. simpl. left. reflexivity. }
      reflexivity.
  - exists (no_prev r). split; [reflexivity|]. now apply in_map.
Qed.

Lemma prev_matches_In (previous_df : list LiveRow) (r p : LiveRow) :
  In p (prev_matches r previous_df)
  <-> In p previous_df /\ row_vehicle_id p = row_vehicle_id r.
Proof.
  unfold prev_matches. rewrite filter_In, String.eqb_eq. tauto.
Qed.

Lemma validate_returned (loc loc' : float * float) :
  validate_location loc = Returned loc' ->
  loc' = loc /\ PrimFloat.is_nan (fst loc) = false /\ PrimFloat.is_nan (snd loc) = false.
Proof.
  unfold validate_location.
  destruct (PrimFloat.is_nan (fst loc)), (PrimFloat.is_nan (snd loc));
    simpl; intros H; inversion H; auto.
Qed.

Lemma validate_raised (loc : float * float) (e : exn) :
  validate_location loc = Raised e -> e = ValueError.
Proof.
  unfold validate_location.
  destruct (PrimFloat.is_nan (fst loc) || PrimFloat.is_nan (snd loc));
    intros H; inversion H; reflexivity.
Qed.

Lemma validate_numbers (a b : float) :
  PrimFloat.is_nan a = false -> PrimFloat.is_nan b = false ->
  validate_location (a, b) = Returned (a, b).
Proof. intros Ha Hb. unfold validate_location. simpl. now rewrite Ha, Hb. Qed.

Lemma validate_nan (a b : float) :
  PrimFloat.is_nan a = true \/ PrimFloat.is_nan b = true ->
  validate_location (a, b) = Raised ValueError.
Proof.
  intros H. unfold validate_location. simpl.
  destruct H as [-> | ->]; [reflexivity|now rewrite orb_true_r].
Qed.

(** Nothing equals a float that is not a number. *)
Lemma eqb_nan_right (x y : float) :
  PrimFloat.is_nan y = true -> PrimFloat.eqb x y = false.
Proof.
  unfold PrimFloat.is_nan. rewrite negb_true_iff, !FloatAxioms.eqb_spec.
  destruct (Prim2SF x) as [[|]|[|]| |[|] ? ?], (Prim2SF y) as [[|]|[|]| |[|] ? ?];
    unfold SFeqb, SFcompare; try reflexivity; try discriminate;
    rewrite ?Pos.compare_cont_spec, ?Z.compare_refl, ?Pos.compare_refl;
    simpl; discriminate.
Qed.

Lemma located_numbers (r : LiveRow) :
  located r = true
  <-> PrimFloat.is_nan (row_lat r) = false /\ PrimFloat.is_nan (row_lon r) = false.
Proof.
  unfold located, is_number. rewrite andb_true_iff, !negb_true_iff. tauto.
Qed.

Lemma moved_lat_prev (v : ViewRow) :
  moved v = true -> PrimFloat.is_nan (cell_value (lat_prev v)) = false.
Proof.
  unfold moved, notna. destruct (lat_prev v) as [x|]; simpl; [|discriminate].
  destruct (PrimFloat.is_nan x); [discriminate|reflexivity].
Qed.

Lemma row_paths_drawable (v : ViewRow) :
  drawable v -> row_paths v = Returned (requested_paths v).
Proof.
  intros [Hloc Hlon]. unfold row_paths, requested_paths.
  destruct (moved v) eqn:Hm; [|reflexivity].
  apply located_numbers in Hloc. destruct Hloc as [Hla Hlo].
  unfold ant_path.
  rewrite (validate_numbers _ _ (moved_lat_prev v Hm) (Hlon eq_refl)).
  simpl. now rewrite (validate_numbers _ _ Hla Hlo).
Qed.

Lemma row_marker_located (v : ViewRow) :
  located (row v) = true ->
  row_marker v = Returned (marker_of v) /\ row_label v = Returned tt.
Proof.
  intros Hloc. apply located_numbers in Hloc. destruct Hloc as [Hla Hlo].
  unfold row_marker, row_label. now rewrite (validate_numbers _ _ Hla Hlo).
Qed.

Lemma row_marker_not_located (v : ViewRow) :
  located (row v) = false -> row_marker v = Raised ValueError.
Proof.
  intros Hloc. unfold row_marker. rewrite validate_nan; [reflexivity|].
  unfold located, is_number in Hloc. apply andb_false_iff in Hloc.
  destruct Hloc as [H | H]; apply negb_false_iff in H; auto.
Qed.

Lemma row_paths_raised (v : ViewRow) (e : exn) :
  row_paths v = Raised e -> e = ValueError.
Proof.
  unfold row_paths, ant_path. destruct (moved v); [|discriminate].
  destruct (validate_location (cell_value (lat_prev v), cell_value (lon_prev v)))
    as [f|e1] eqn:E1; simpl.
  - destruct (validate_location (row_lat (row v), row_lon (row v))) as [t|e2] eqn:E2;
      simpl; [discriminate|].
    intros H; inversion H; subst. eapply validate_raised; eassumption.
  - intros H; inversion H; subst. eapply validate_raised; eassumption.
Qed.

Lemma row_paths_returned (v : ViewRow) (ps : list AntPath) :
  row_paths v = Returned ps ->
  ps = requested_paths v
  /\ (moved v = true ->
      PrimFloat.is_nan (cell_value (lon_prev v)) = false /\ located (row v) = true).
Proof.
  unfold row_paths, requested_paths, ant_path. destruct (moved v).
  - destruct (validate_location (cell_value (lat_prev v), cell_value (lon_prev v)))
      as [f|e1] eqn:E1; simpl; [|discriminate].
    destruct (validate_location (row_lat (row v), row_lon (row v))) as [t|e2] eqn:E2;
      simpl; [|discriminate].
    apply validate_returned in E1, E2.
    destruct E1 as (-> & _ & Hlon), E2 as (-> & Hla & Hlo). simpl in *.
    intros H; inversion H; subst. split; [reflexivity|]. intros _.
    split; [exact Hlon|]. apply located_numbers. now split.
  - intros H; inversion H. split; [reflexivity|discriminate].
Qed.

Lemma draw_rows_drawable (view : list ViewRow) :
  Forall drawable view ->
  draw_rows view = Returned (flat_map requested_paths view, map marker_of view).
Proof.
  induction 1 as [|v rest Hv _ IH]; [reflexivity|].
  cbn [draw_rows flat_map map]. rewrite (row_paths_drawable v Hv).
  destruct (row_marker_located v (proj1 Hv)) as [-> ->]. simpl.
  rewrite IH. reflexivity.
Qed.

Lemma draw_rows_returned (view : list ViewRow) (drawn : list AntPath * list Marker) :
  draw_rows view = Returned drawn ->
  Forall drawable view
  /\ drawn = (flat_map requested_paths view, map marker_of view).
Proof.
  revert drawn. induction view as [|v rest IH]; intros drawn; cbn [draw_rows].
  - intros H; inversion H. split; [constructor|reflexivity].
  - destruct (row_paths v) as [ps|e] eqn:Ep; simpl; [|discriminate].
    destruct (located (row v)) eqn:Hloc.
    + destruct (row_marker_located v Hloc) as [-> ->]. simpl.
      destruct (draw_rows rest) as [d|e] eqn:Ed; simpl; [|discriminate].
      destruct (IH d eq_refl) as [Hall ->].
      apply row_paths_returned in Ep. destruct Ep as [-> Hm].
      intros H; inversion H; subst. split; [|reflexivity].
      constructor; [|exact Hall]. split; [exact Hloc|].
      intros M. now apply Hm.
    + rewrite (row_marker_not_located v Hloc). discriminate.
Qed.

Lemma draw_rows_raised (view : list ViewRow) (e : exn) :
  draw_rows view = Raised e -> e = ValueError.
Proof.
  induction view as [|v rest IH]; cbn [draw_rows]; [discriminate|].
  destruct (row_paths v) as [ps|e1] eqn:Ep; simpl.
  - destruct (located (row v)) eqn:Hloc.
    + destruct (row_marker_located v Hloc) as [-> ->]. simpl.
      destruct (draw_rows rest) as [d|e2]; simpl; [discriminate|].
      intros H; inversion H; subst. now apply IH.
    + rewrite (row_marker_not_located v Hloc). simpl.
      intros H; inversion H; reflexivity.
  - intros H; inversion H; subst. eapply row_paths_raised; eassumption.
Qed.

Section Maps.

Variable mean : list float -> float.

(** The centre line 159 computes. *)
Definition map_center (view : list ViewRow) : float * float :=
  (mean (map (fun v => row_lat (row v)) view),
   mean (map (fun v => row_lon (row v)) view)).

Lemma make_map_raised (view : list ViewRow) (e : exn) :
  make_map mean view = Raised e -> e = ValueError.
Proof.
  unfold make_map. destruct (negb (empty view)); [|discriminate].
  destruct (validate_location _) as [c|e1] eqn:Ec; simpl.
  - destruct (draw_rows view) as [d|e2] eqn:Ed; simpl; [discriminate|].
    intros H; inversion H; subst. eapply draw_rows_raised; eassumption.
  - intros H; inversion H; subst. eapply validate_raised; eassumption.
Qed.

Lemma make_map_returned (view : list ViewRow) (m : MapHtml) :
  make_map mean view = Returned m ->
  Forall drawable view
  /\ map_paths m = flat_map requested_paths view
  /\ map_markers m = map marker_of view.
Proof.
  unfold make_map. destruct view as [|v rest] eqn:Ev.
  - simpl. intros H; inversion H. split; [constructor|split; reflexivity].
  - rewrite <- Ev. replace (negb (empty view)) with true by now rewrite Ev.
    destruct (validate_location _) as [c|e1]; simpl; [|discriminate].
    destruct (draw_rows view) as [d|e2] eqn:Ed; simpl; [|discriminate].
    apply draw_rows_returned in Ed. destruct Ed as [Hall ->].
    intros H; inversion H. simpl. auto.
Qed.

Lemma make_map_drawable (view : list ViewRow) :
  view <> [] -> Forall drawable view ->
  PrimFloat.is_nan (fst (map_center view)) = false ->
  PrimFloat.is_nan (snd (map_center view)) = false ->
  make_map mean view
  = Returned (FoliumMap (map_center view) (flat_map requested_paths view)
                (map marker_of view)).
Proof.
  intros Hne Hall Hc1 Hc2. unfold make_map.
  destruct view as [|v rest] eqn:Ev; [congruence|]. rewrite <- Ev in *.
  replace (negb (empty view)) with true by now rewrite Ev.
  fold (map_center view). destruct (map_center view) as [c1 c2]. simpl in Hc1, Hc2.
  rewrite (validate_numbers _ _ Hc1 Hc2). simpl.
  now rewrite (draw_rows_drawable view Hall).
Qed.

Lemma make_map_not_drawable (view : list ViewRow) (v : ViewRow) :
  In v view -> ~ drawable v -> make_map mean view = Raised ValueError.
Proof.
  intros Hin Hnot. destruct (make_map mean view) as [m|e] eqn:E.
  - exfalso. apply make_map_returned in E. destruct E as [Hall _].
    rewrite Forall_forall in Hall. now apply Hnot, Hall.
  - now rewrite (make_map_raised view e E).
Qed.

End Maps.

Lemma joined_row_paths (r p : LiveRow) :
  drawable {| row := r; lat_prev := Some (row_lat p); lon_prev := Some (row_lon p) |} ->
  requested_paths {| row := r; lat_prev := Some (row_lat p);
                     lon_prev := Some (row_lon p) |}
  = pair_segments r p.
Proof.
  intros [Hloc Hlon]. unfold requested_paths, pair_segments, moved, notna, located at 2.
  simpl in *. rewrite Hloc. fold (is_number (row_lat p)). unfold segment.
  destruct (is_number (row_lat p)) eqn:Hlat; simpl.
  - destruct (float_ne (row_lat r) (row_lat p) || float_ne (row_lon r) (row_lon p))
      eqn:Hne.
    + unfold moved, notna in Hlon. simpl in Hlon. fold (is_number (row_lat p)) in Hlon.
      rewrite Hlat, Hne in Hlon. unfold is_number. rewrite (Hlon eq_refl). reflexivity.
    + now rewrite andb_false_r.
  - reflexivity.
Qed.

Lemma joined_paths (previous_df : list LiveRow) (r : LiveRow) :
  Forall drawable (join_prev previous_df r) ->
  flat_map requested_paths (join_prev previous_df r) = segments_for previous_df r.
Proof.
  unfold join_prev, segments_for.
  destruct (prev_matches r previous_df) as [|p ps]; [reflexivity|].
  generalize (p :: ps) as l. induction l as [|q l IH]; [reflexivity|].
  cbn [map flat_map]. intros H. inversion H as [|? ? Hq Hl]; subst.
  rewrite (joined_row_paths r q Hq). now rewrite IH.
Qed.

Lemma view_paths (filtered_df previous_df : list LiveRow) :
  previous_df <> [] ->
  Forall drawable (with_previous filtered_df previous_df) ->
  flat_map requested_paths (with_previous filtered_df previous_df)
  = flat_map (segments_for previous_df) filtered_df.
Proof.
  intros Hne. unfold with_previous.
  destruct previous_df as [|p0 ps0]; [congruence|]. simpl negb. cbv iota.
  induction filtered_df as [|r rs IH]; [reflexivity|].
  cbn [flat_map]. rewrite Forall_app. intros [H1 H2].
  rewrite flat_map_app, (joined_paths _ r H1). now rewrite IH.
Qed.

Lemma pair_same_position (r p : LiveRow) :
  same_position p r -> pair_segments r p = [].
Proof.
  intros [Hlat Hlon]. unfold pair_segments, float_ne.
  rewrite Hlat, Hlon. simpl. now rewrite andb_false_r.
Qed.

Lemma pair_moved (r p : LiveRow) :
  located r = true -> located p = true -> ~ same_position p r ->
  pair_segments r p = [segment p r].
Proof.
  intros Hr Hp Hdiff. unfold pair_segments, float_ne. rewrite Hr, Hp. simpl.
  destruct (PrimFloat.eqb (row_lat r) (row_lat p)) eqn:Hlat; [|reflexivity].
  destruct (PrimFloat.eqb (row_lon r) (row_lon p)) eqn:Hlon; [|reflexivity].
  exfalso. apply Hdiff. now split.
Qed.

End ViewFacts.

Section PageClaims.
Import Py Feed FlaskApp SortFacts ViewFacts.

Variable ParseFromString : bytes -> option FeedMessage.
Variable strftime : Z -> result string.
Variable mean : list float -> float.

(** What the route answers for a context: the page with its map, or the
    [ValueError] folium raised while the map was drawn. *)
Definition page_or_error (ctx : Context) : result Response :=
  match make_map mean (rows ctx) with
  | Returned m => Returned (Page ctx m)
  | Raised e => Raised e
  end.

(** With a non-empty snapshot the route builds the context of [index_view]
    from the snapshot the call returned and the previous one of the cache,
    and draws its rows. *)
Lemma index_serves_view (w w' : World) (now refreshed : Z)
  (http : string -> option bytes) (args : list (string * string))
  (master_df : list LiveRow) :
  get_live_bus_data ParseFromString strftime now http w
  = (Returned (master_df, refreshed), w') ->
  master_df <> [] ->
  index ParseFromString strftime mean now http args w
  = (page_or_error (index_view master_df (previous_data (CACHE w')) refreshed args),
     w').
Proof.
  intros E Hne. unfold index, bind. rewrite E.
  destruct master_df; [congruence|]. reflexivity.
Qed.

(** C8.  On a request without a [status] value and a non-empty snapshot, the
    selected statuses of the context are its status options: in increasing
    order, each once, the statuses of the snapshot rows of the selected region
    and route.  No row of that region and route is then left out for its
    status: each is among the rows to draw, unless the vehicle filter names
    another vehicle.  The route answers with the page of that context, or
    with the [ValueError] of folium when a position to draw is not a
    number. *)
Theorem unselected_status_shows_all (w w' : World) (now refreshed : Z)
  (http : string -> option bytes) (args : list (string * string))
  (master_df : list LiveRow) :
  get_live_bus_data ParseFromString strftime now http w
  = (Returned (master_df, refreshed), w') ->
  master_df <> [] ->
  (forall v, ~ In ("status", v) args) ->
  let reg := args_get args "region" "Gold Coast" in
  let route := args_get args "route" "700" in
  let vehicle := args_get args "vehicle" "All" in
  let ctx := index_view master_df (previous_data (CACHE w')) refreshed args in
  index ParseFromString strftime mean now http args w
  = (match make_map mean (rows ctx) with
     | Returned m => Returned (Page ctx m)
     | Raised e => Raised e
     end, w')
  /\ sel_status (selected_filters ctx) = status_options ctx
  /\ distinct_values (fun r => in_region reg r /\ on_route route r) status
       master_df (sel_status (selected_filters ctx))
  /\ (forall r, In r master_df -> in_region reg r -> on_route route r ->
        In (status r) (sel_status (selected_filters ctx))
        /\ (vehicle = "All" \/ row_vehicle_id r = vehicle ->
            In r (map row (rows ctx)))).
Proof.
  intros E Hne Hnone reg route vehicle ctx.
  split; [now apply index_serves_view|].
  assert (Hsel : args_getlist args "status" = []) by now apply args_getlist_absent.
  assert (Hvals : distinct_values (fun r => in_region reg r /\ on_route route r)
                    status master_df (status_options_of master_df reg route)).
  { apply distinct_values_of_column. intros r. apply df_for_status_options_In. }
  subst ctx. cbn [index_view selected_filters sel_status status_options rows].
  rewrite Hsel. cbn [resolve_status]. fold reg route vehicle.
  split; [reflexivity|]. split; [exact Hvals|].
  intros r Hr Hreg Hroute.
  assert (Hst : In (status r) (status_options_of master_df reg route)).
  { apply Hvals. exists r. tauto. }
  split; [exact Hst|]. intros Hveh.
  apply with_previous_rows. unfold filter_vehicle.
  assert (Hin : In r (df_for_vehicle_options master_df reg route
                        (status_options_of master_df reg route))).
  { apply df_for_vehicle_options_In. tauto. }
  destruct (String.eqb_spec vehicle "All") as [Ev|Nv]; simpl; [exact Hin|].
  apply filter_In. split; [exact Hin|]. apply String.eqb_eq.
  destruct Hveh; [contradiction|assumption].
Qed.

(** C10.  On a request with a non-empty snapshot, the region, route and
    vehicle options of the context are "All" followed by the distinct
    values, in increasing order, of the region of all rows, of the route name
    of the rows of the selected region, and of the vehicle id of the rows of
    the selected region and route with a selected status.  The status options
    are the distinct statuses of the rows of the selected region and route in
    increasing order, and nothing else: they hold "All" only if it is a
    status of the snapshot.  The route answers with the page of that
    context, or with the [ValueError] of folium when a position to draw is
    not a number. *)
Theorem option_lists (w w' : World) (now refreshed : Z)
  (http : string -> option bytes) (args : list (string * string))
  (master_df : list LiveRow) :
  get_live_bus_data ParseFromString strftime now http w
  = (Returned (master_df, refreshed), w') ->
  master_df <> [] ->
  let reg := args_get args "region" "Gold Coast" in
  let route := args_get args "route" "700" in
  let ctx := index_view master_df (previous_data (CACHE w')) refreshed args in
  index ParseFromString strftime mean now http args w
  = (match make_map mean (rows ctx) with
     | Returned m => Returned (Page ctx m)
     | Raised e => Raised e
     end, w')
  /\ exists regions routes vehicles,
    region_options ctx = "All" :: regions
    /\ distinct_values (fun _ => True) region master_df regions
    /\ route_options ctx = "All" :: routes
    /\ distinct_values (in_region reg) route_name master_df routes
    /\ distinct_values (fun r => in_region reg r /\ on_route route r) status
         master_df (status_options ctx)
    /\ vehicle_options ctx = "All" :: vehicles
    /\ distinct_values
         (fun r => in_region reg r /\ on_route route r
                   /\ In (status r) (sel_status (selected_filters ctx)))
         row_vehicle_id master_df vehicles
    /\ sel_status (selected_filters ctx)
       = (if empty (args_getlist args "status") then status_options ctx
          else args_getlist args "status")
    /\ ((forall r, In r master_df -> In (status r) ["Delayed"; "Early"; "On Time"]) ->
        ~ In "All" (status_options ctx)).
Proof.
  intros E Hne reg route ctx.
  split; [now apply index_serves_view|].
  assert (Hst : distinct_values (fun r => in_region reg r /\ on_route route r)
                  status master_df (status_options_of master_df reg route)).
  { apply distinct_values_of_column. intros r. apply df_for_status_options_In. }
  eexists _, _, _. subst ctx.
  cbn [index_view region_options route_options status_options vehicle_options
       selected_filters sel_status].
  fold reg route.
  split; [reflexivity|]. split.
  { apply distinct_values_of_column. intros r. tauto. }
  split; [reflexivity|]. split.
  { apply distinct_values_of_column. intros r. apply df_for_route_options_In. }
  split; [exact Hst|]. split; [reflexivity|]. split.
  { apply distinct_values_of_column. intros r. apply df_for_vehicle_options_In. }
  split.
  { destruct (args_getlist args "status"); reflexivity. }
  intros Hwf Hall. apply Hst in Hall. destruct Hall as (r & Hr & _ & Heq).
  specialize (Hwf r Hr). rewrite Heq in Hwf. simpl in Hwf.
  intuition discriminate.
Qed.

(** C9, as amended.  Without a previous snapshot every row of the view has
    empty previous coordinates and a map that is drawn has no path.  With
    one, the paths of a map that is drawn are those owed to the rows of the
    filtered view, in order, and a row is owed its paths for the rows of the
    previous snapshot with its [vehicle_id], taken one by one: none for a
    previous row at the same coordinates, the one path from the previous to
    the current coordinates for a previous row elsewhere, both positions
    being made of numbers.  So a vehicle that occurs once in the previous
    snapshot gets no path when it has not moved and exactly one when it has,
    and one that does not occur gets none.  No map is drawn, and folium's
    [ValueError] is raised, when a row of the filtered view is at a position
    that is not a number, or has a previous row whose latitude is a number
    and whose longitude is not. *)
Theorem movement_paths (filtered_df previous_df : list LiveRow) :
  let view := with_previous filtered_df previous_df in
  (previous_df = [] ->
     Forall (fun v => lat_prev v = None /\ lon_prev v = None) view
     /\ forall m, make_map mean view = Returned m -> map_paths m = [])
  /\ (previous_df <> [] ->
      forall m, make_map mean view = Returned m ->
                map_paths m = flat_map (segments_for previous_df) filtered_df)
  /\ (forall r p, same_position p r -> pair_segments r p = [])
  /\ (forall r p, located r = true -> located p = true -> ~ same_position p r ->
        pair_segments r p = [segment p r])
  /\ (forall r,
        (forall p, In p previous_df -> row_vehicle_id p <> row_vehicle_id r) ->
        segments_for previous_df r = [])
  /\ (forall r p,
        filter (fun q => String.eqb (row_vehicle_id q) (row_vehicle_id r)) previous_df
        = [p] ->
        (same_position p r -> segments_for previous_df r = [])
        /\ (located r = true -> located p = true -> ~ same_position p r ->
            segments_for previous_df r = [segment p r]))
  /\ (forall r, In r filtered_df -> located r = false ->
        make_map mean view = Raised ValueError)
  /\ (forall r p, In r filtered_df -> In p previous_df ->
        row_vehicle_id p = row_vehicle_id r ->
        PrimFloat.is_nan (row_lat p) = false -> PrimFloat.is_nan (row_lon p) = true ->
        make_map mean view = Raised ValueError).
Proof.
  intros view.
  split; [|split; [|split; [|split; [|split; [|split; [|split]]]]]].
  - intros ->. subst view. unfold with_previous. simpl.
    assert (Hnone : Forall (fun v => lat_prev v = None /\ lon_prev v = None)
                      (map no_prev filtered_df)).
    { apply Forall_forall. intros v Hv. apply in_map_iff in Hv.
      destruct Hv as (r & <- & _). now split. }
    split; [exact Hnone|]. intros m E.
    apply make_map_returned in E. destruct E as (_ & -> & _).
    clear Hnone. induction filtered_df as [|r rs IH]; [reflexivity|]. exact IH.
  - intros Hne m E. apply make_map_returned in E. destruct E as (Hall & -> & _).
    now apply view_paths.
  - intros r p. apply pair_same_position.
  - intros r p. apply pair_moved.
  - intros r Hno. unfold segments_for.
    destruct (prev_matches r previous_df) as [|p ps] eqn:E; [reflexivity|].
    exfalso. assert (Hp : In p (prev_matches r previous_df)) by (rewrite E; now left).
    apply prev_matches_In in Hp. destruct Hp as [Hin Heq]. now apply (Hno p).
  - intros r p Hone. unfold segments_for, prev_matches. rewrite Hone. simpl.
    rewrite app_nil_r. split; [apply pair_same_position|apply pair_moved].
  - intros r Hr Hloc.
    assert (Hrow : In r (map row view)) by now apply with_previous_rows.
    apply in_map_iff in Hrow. destruct Hrow as (v & Ev & Hv).
    apply (make_map_not_drawable mean view v Hv).
    intros [Hl _]. rewrite Ev in Hl. congruence.
  - intros r p Hr Hp Hid Hlat Hlon.
    set (v := {| row := r; lat_prev := Some (row_lat p);
                 lon_prev := Some (row_lon p) |}).
    assert (Hv : In v view).
    { subst view. unfold with_previous.
      destruct previous_df as [|p0 ps0]; [contradiction|]. simpl negb. cbv iota.
      apply in_flat_map. exists r. split; [exact Hr|]. unfold join_prev.
      assert (Hm : In p (prev_matches r (p0 :: ps0))) by now apply prev_matches_In.
      destruct (prev_matches r (p0 :: ps0)) as [|q qs]; [contradiction|].
      apply in_map_iff. exists p. split; [reflexivity|exact Hm]. }
    apply (make_map_not_drawable mean view v Hv).
    intros [_ Hm]. assert (M : moved v = true).
    { unfold moved, notna, float_ne. simpl. rewrite Hlat. simpl.
      rewrite (eqb_nan_right (row_lon r) (row_lon p) Hlon). simpl.
      apply orb_true_r. }
    specialize (Hm M). simpl in Hm. congruence.
Qed.

End PageClaims.

(* ================================================================= *)
(** ** The statements on the sample feeds *)

Section OnSamples.
Import Py Feed FlaskApp RefreshFacts SortFacts ViewFacts Samples.

Local Abbreviation sample_live := (get_live_bus_data sample_parse sample_strftime).
Local Abbreviation sample_index := (index sample_parse sample_strftime sample_mean).

Lemma warm_world_refreshed : last_refreshed (CACHE warm_world) = Some t0.
Proof. vm_compute. reflexivity. Defined.

Lemma first_refresh :
  sample_live t0 http_ok fresh_world
  = (Returned (data (CACHE warm_world), t0), warm_world).
Proof. vm_compute. reflexivity. Defined.

Lemma sample_feeds_decode (vehicles trips : bytes) (fv ft : FeedMessage) :
  truthy (Some vehicles) = true -> truthy (Some trips) = true ->
  sample_parse vehicles = Some fv -> sample_parse trips = Some ft ->
  feeds_decode sample_parse (serve (Some vehicles) (Some trips)) fv ft.
Proof. intros Hv Ht Pv Pt. repeat split; assumption. Defined.

(** The frame of the two sample buses. *)
Definition sample_vehicles_df : list VehicleRow :=
  match vehicle_rows sample_strftime vehicles_feed with
  | Returned df => df
  | Raised _ => []
  end.

Lemma sample_vehicles_decoded :
  vehicle_rows sample_strftime vehicles_feed = Returned sample_vehicles_df.
Proof. vm_compute. reflexivity. Defined.

(** C1: on the two sample feeds each bus appears once, the one without a trip
    update on time. *)
Lemma merge_is_left_join_on_samples :
  exists live w',
    sample_live t0 http_ok fresh_world = (Returned (live, t0), w')
    /\ map veh live = sample_vehicles_df.
Proof.
  destruct (merge_is_left_join sample_parse sample_strftime fresh_world t0 http_ok
              vehicles_feed trips_feed sample_vehicles_df)
    as (live & w' & E & _ & _ & _ & _ & Honce).
  - exact I.
  - apply sample_feeds_decode; reflexivity.
  - exact sample_vehicles_decoded.
  - vm_compute. discriminate.
  - vm_compute. discriminate.
  - exists live, w'. split; [exact E|]. apply Honce.
    vm_compute. repeat constructor. intros [].
Defined.

(** C1 as stated fails: with two trip updates for trip T1 the bus on T1
    appears twice in the snapshot. *)
Lemma repeated_trip_update_repeats_vehicle :
  map vehicle_id sample_vehicles_df = ["G101"; "B202"]
  /\ exists live w',
       sample_live t0 (serve (Some payload_vehicles) (Some payload_repeated_trips))
         fresh_world = (Returned (live, t0), w')
       /\ map row_vehicle_id live = ["G101"; "G101"; "B202"]
       /\ map delay live = [400; -90; 0].
Proof.
  split; [reflexivity|]. eexists _, _. split; [vm_compute; reflexivity|].
  split; reflexivity.
Qed.

(** C2: fifty-nine seconds after the refresh the cache is served, with the
    network down. *)
Lemma cache_window_on_samples :
  sample_live (t0 + 59 * second) (serve None None) warm_world
  = (Returned (data (CACHE warm_world), t0), warm_world).
Proof.
  apply (proj1 (cache_window sample_parse sample_strftime warm_world t0
                  warm_world_refreshed)).
  vm_compute. reflexivity.
Defined.

(** C3: a minute after the refresh the vehicle feed cannot be fetched. *)
Lemma failed_refresh_on_samples :
  let (r, w') := sample_live (t0 + 60 * second) (serve None (Some payload_trips))
                   warm_world in
  r = Returned (data (CACHE warm_world),
                match last_refreshed (CACHE warm_world) with
                | Some t => t
                | None => t0 + 60 * second
                end)
  /\ data (CACHE w') = data (CACHE warm_world)
  /\ previous_data (CACHE w') = previous_data (CACHE warm_world)
  /\ last_refreshed (CACHE w') = last_refreshed (CACHE warm_world)
  /\ forall now' http', t0 + 60 * second <= now' ->
       requested (snd (sample_live now' http' w'))
       = requested w' ++ [VEHICLE_POSITIONS_URL; TRIP_UPDATES_URL].
Proof.
  apply (failed_refresh_keeps_cache sample_parse sample_strftime warm_world
           (t0 + 60 * second) (serve None (Some payload_trips))).
  - vm_compute. discriminate.
  - left. left. reflexivity.
Defined.

(** C3 as stated fails: the vehicle payload decodes to no vehicle and the
    trip payload is malformed; the call raises. *)
Lemma no_vehicles_and_malformed_trips_raises :
  let http := serve (Some payload_empty_feed) (Some payload_malformed) in
  truthy (http VEHICLE_POSITIONS_URL) = true
  /\ truthy (http TRIP_UPDATES_URL) = true
  /\ fst (parse_vehicle_positions sample_parse sample_strftime
            (content_of (http VEHICLE_POSITIONS_URL)) fresh_world) = Returned []
  /\ sample_live t0 http fresh_world = (Raised DecodeError, after_attempt fresh_world).
Proof. vm_compute. repeat split. Qed.

(** C6: with both requests failing, the cache is served at any time. *)
Lemma fail_soft_on_samples :
  exists w',
    sample_live (t0 + 90 * second) (serve None None) warm_world
    = (served_from_cache (CACHE warm_world) (t0 + 90 * second), w')
    /\ CACHE w' = CACHE warm_world.
Proof.
  apply (proj1 (fail_soft_except_decoding sample_parse sample_strftime warm_world
                  (t0 + 90 * second) (serve None None))).
  left. left. reflexivity.
Defined.

(** C6 as stated fails: a malformed vehicle payload raises to the caller. *)
Lemma malformed_payload_raises :
  sample_live t0 (serve (Some payload_malformed) (Some payload_trips)) fresh_world
  = (Raised DecodeError, after_attempt fresh_world).
Proof. vm_compute. reflexivity. Qed.

(** C7: two buses and a trip feed without entities. *)
Lemma no_trip_updates_on_samples :
  sample_live t0 (serve (Some payload_vehicles) (Some payload_empty_feed)) fresh_world
  = (Raised (KeyError "trip_id"), after_attempt fresh_world).
Proof.
  apply (refresh_without_trip_updates_raises sample_parse sample_strftime fresh_world
           t0 (serve (Some payload_vehicles) (Some payload_empty_feed))
           vehicles_feed empty_feed sample_vehicles_df).
  - exact I.
  - apply sample_feeds_decode; reflexivity.
  - exact sample_vehicles_decoded.
  - vm_compute. discriminate.
  - reflexivity.
Defined.

(** C5: a latitude in the second bucket. *)
Lemma region_on_samples : categorize_region (-28.0) = "Gold Coast".
Proof.
  apply (proj1 (proj2 (region_by_declared_order (-28.0)))).
  - intros [H _]. vm_compute in H. discriminate H.
  - split; reflexivity.
Defined.

(** The context of the first page of the sample process, for all regions and
    routes, and the map drawn for it. *)
Definition first_context : Context :=
  index_view (data (CACHE warm_world)) (previous_data (CACHE warm_world)) t0 args_all.

Lemma first_map_drawn :
  exists m, make_map sample_mean (rows first_context) = Returned m.
Proof. eexists. vm_compute. reflexivity. Defined.

(** C8: the first page, all regions and routes, no status in the request. *)
Lemma unselected_status_on_samples :
  exists m,
    sample_index t0 http_ok args_all fresh_world
    = (Returned (Page first_context m), warm_world)
    /\ sel_status (selected_filters first_context) = status_options first_context.
Proof.
  destruct (unselected_status_shows_all sample_parse sample_strftime sample_mean
              fresh_world warm_world t0 t0 http_ok args_all (data (CACHE warm_world)))
    as (E & Hsel & _).
  - exact first_refresh.
  - vm_compute. discriminate.
  - intros v [H | [H | []]]; discriminate H.
  - destruct first_map_drawn as [m Hm]. exists m. fold first_context in E, Hsel.
    rewrite Hm in E. split; assumption.
Defined.

(** C10: the same page. *)
Lemma option_lists_on_samples :
  exists m regions,
    sample_index t0 http_ok args_all fresh_world
    = (Returned (Page first_context m), warm_world)
    /\ region_options first_context = "All" :: regions
    /\ ~ In "All" (status_options first_context).
Proof.
  destruct (option_lists sample_parse sample_strftime sample_mean fresh_world
              warm_world t0 t0 http_ok args_all (data (CACHE warm_world)))
    as (E & regions & routes & vehicles & Hr & _ & _ & _ & _ & _ & _ & _ & Hno).
  - exact first_refresh.
  - vm_compute. discriminate.
  - destruct first_map_drawn as [m Hm]. exists m, regions.
    fold first_context in E, Hr, Hno. rewrite Hm in E.
    split; [exact E|]. split; [exact Hr|].
    apply Hno. vm_compute. intros r [<- | [<- | []]]; auto.
Defined.

(** C9: a bus that moved north since the previous snapshot gets one path. *)
Lemma movement_paths_on_samples :
  exists m,
    make_map sample_mean (with_previous [g101_north] [g101_here]) = Returned m
    /\ map_paths m = [segment g101_here g101_north].
Proof.
  destruct (movement_paths sample_mean [g101_north] [g101_here])
    as (_ & Hall & _ & _ & _ & Hone & _).
  eexists. split; [vm_compute; reflexivity|].
  rewrite (Hall ltac:(discriminate) _ ltac:(vm_compute; reflexivity)).
  cbn [flat_map]. rewrite app_nil_r.
  apply (proj2 (Hone g101_north g101_here eq_refl)).
  - reflexivity.
  - reflexivity.
  - intros [H _]. vm_compute in H. discriminate H.
Defined.

(** C9 as stated fails when a vehicle id occurs twice in the previous
    snapshot: a bus that is where one of the two previous rows has it still
    gets a path, from the other; a bus that is at neither place gets two. *)
Lemma repeated_previous_vehicle_draws_paths :
  let previous_df := [g101_here; g101_south] in
  In g101_here previous_df
  /\ row_vehicle_id g101_here = row_vehicle_id g101_here
  /\ same_position g101_here g101_here
  /\ (exists m, make_map sample_mean (with_previous [g101_here] previous_df)
                = Returned m
                /\ map_paths m = [segment g101_south g101_here])
  /\ (exists m, make_map sample_mean (with_previous [g101_north] previous_df)
                = Returned m
                /\ map_paths m = [segment g101_here g101_north;
                                  segment g101_south g101_north]).
Proof.
  cbv zeta. split; [now left|]. split; [reflexivity|].
  split; [split; reflexivity|].
  split; eexists; (split; [vm_compute; reflexivity|reflexivity]).
Qed.

End OnSamples.

(* ================================================================= *)
(** ** wsgi.py *)

Module WsgiApp.

Definition project_home : string := "/home/jjjjzzzz/stuffs_seq_flask".

(** Lines 10-11: [sys.path] after the two lines, from [sys.path] before. *)
Definition configure_path (sys_path : list string) : list string :=
  if negb (existsb (String.eqb project_home) sys_path)
  then [project_home] ++ sys_path
  else sys_path.

End WsgiApp.

(* ================================================================= *)
(** ** Runs of the process *)

Module Runs.
Import Py Feed FlaskApp.

(** The process as the module is loaded. *)
Definition startup : World := {| CACHE := CACHE_init; requested := [] |}.

(** One call of [get_live_bus_data]: the time it reads and what the network
    answers during it. *)
Definition Call : Type := (Z * (string -> option bytes))%type.

(** Line 180: the time the page announces for the next refresh. *)
Definition next_refresh (refreshed : Z) : Z :=
  refreshed + REFRESH_INTERVAL_SECONDS * 1000000.

(** What every row of a snapshot owes to lines 64 and 91-100: its status is
    that of its delay, its route name the prefix of its route id, its region
    that of its latitude. *)
Definition row_consistent (r : LiveRow) : Prop :=
  status r = delay_status (delay r)
  /\ route_name r = split_first "-"%char (route_id (veh r))
  /\ region r = categorize_region (row_lat r).

(** The cache holds consistent rows, and has a snapshot exactly when it has
    the time of a refresh. *)
Definition cache_consistent (c : Cache) : Prop :=
  Forall row_consistent (data c)
  /\ Forall row_consistent (previous_data c)
  /\ (last_refreshed c = None -> data c = [] /\ previous_data c = [])
  /\ (last_refreshed c <> None -> data c <> []).

Section WithDecoder.

Variable ParseFromString : bytes -> option FeedMessage.
Variable strftime : Z -> result string.

(** The process after a sequence of calls, whatever they returned or raised. *)
Fixpoint after_calls (calls : list Call) (w : World) : World :=
  match calls with
  | [] => w
  | (now, http) :: rest =>
      after_calls rest (snd (get_live_bus_data ParseFromString strftime now http w))
  end.

End WithDecoder.

End Runs.

(* ================================================================= *)
(** ** What a call does to the cache *)

Section CallEffects.
Import Py Feed FlaskApp RefreshFacts Runs.

Variable ParseFromString : bytes -> option FeedMessage.
Variable strftime : Z -> result string.

Local Abbreviation get_live := (get_live_bus_data ParseFromString strftime).

Lemma join_row_not_nil (v : VehicleRow) (updates_df : list UpdateRow) :
  join_row v updates_df <> [].
Proof.
  unfold join_row. destruct (matches v updates_df); discriminate.
Qed.

Lemma merged_not_nil (updates_df : list UpdateRow) (vehicles_df : list VehicleRow) :
  vehicles_df <> [] -> flat_map (merged_rows updates_df) vehicles_df <> [].
Proof.
  destruct vehicles_df as [|v vs]; [congruence|]. intros _. cbn [flat_map].
  unfold merged_rows at 1. pose proof (join_row_not_nil v updates_df) as H.
  destruct (join_row v updates_df); [congruence|discriminate].
Qed.

(** The three ways a call ends. *)
Inductive Outcome (w : World) (now : Z) : result (list LiveRow * Z) -> World -> Prop :=
| Served (w' : World) :
    CACHE w' = CACHE w ->
    Outcome w now (served_from_cache (CACHE w) now) w'
| Failed (e : exn) (w' : World) :
    CACHE w' = CACHE w ->
    Outcome w now (Raised e) w'
| Refreshed (ft : FeedMessage) (vehicles_df : list VehicleRow) (w' : World) :
    vehicles_df <> [] ->
    CACHE w' = {| data := flat_map (merged_rows (trip_update_rows ft)) vehicles_df;
                  last_refreshed := Some now;
                  previous_data := data (CACHE w) |} ->
    Outcome w now
      (Returned (flat_map (merged_rows (trip_update_rows ft)) vehicles_df, now)) w'.

Lemma call_outcome (w : World) (now : Z) (http : string -> option bytes) :
  Outcome w now (fst (get_live now http w)) (snd (get_live now http w)).
Proof.
  destruct (fresh_or_stale (CACHE w) now) as [(t & Ht & Hlt) | Hs].
  - rewrite (fresh_call _ _ w t now http Ht Hlt). simpl.
    replace (Returned (data (CACHE w), t)) with (served_from_cache (CACHE w) now)
      by (unfold served_from_cache; now rewrite Ht).
    now constructor.
  - rewrite stale_call by assumption.
    destruct (truthy (http VEHICLE_POSITIONS_URL)) eqn:Hv.
    2: { rewrite refresh_fetch_failed by (now left). now constructor. }
    destruct (truthy (http TRIP_UPDATES_URL)) eqn:Ht.
    2: { rewrite refresh_fetch_failed by (now right). now constructor. }
    destruct (ParseFromString (content_of (http VEHICLE_POSITIONS_URL))) as [fv|] eqn:Pv.
    2: { rewrite refresh_decode_fails by (repeat split; auto). now constructor. }
    destruct (vehicle_rows strftime fv) as [vehicles_df|e] eqn:Ev.
    2: { rewrite (refresh_timestamp_fails _ _ w now http e)
           by (repeat split; eauto).
         now constructor. }
    destruct (ParseFromString (content_of (http TRIP_UPDATES_URL))) as [ft|] eqn:Pt.
    2: { rewrite refresh_decode_fails
           by (split; [assumption|split; [assumption|right; eauto]]).
         now constructor. }
    assert (Hd : feeds_decode ParseFromString http fv ft) by (repeat split; assumption).
    destruct vehicles_df as [|v vs].
    { rewrite (refresh_no_vehicles _ _ w now http fv ft Hd Ev). now constructor. }
    destruct (trip_update_rows ft) as [|u us] eqn:Eu.
    { rewrite (refresh_no_updates _ _ w now http fv ft (v :: vs) Hd Ev)
        by (rewrite ?Eu; congruence).
      now constructor. }
    rewrite (refresh_succeeds _ _ w now http fv ft (v :: vs) Hd Ev)
      by (rewrite ?Eu; congruence).
    simpl. rewrite Eu.
    pose proof (Refreshed w now ft (v :: vs)) as R. rewrite Eu in R.
    apply R; [discriminate|reflexivity].
Qed.

(** X1.  A call changes the cache in one way only: it returned a non-empty
    snapshot with the time of the call, the cache now holds that snapshot and
    that time, and the snapshot it held before is the previous one.  Every
    other call, whether it returns or raises, leaves the three fields as they
    were. *)
Theorem call_effect_on_cache (w : World) (now : Z) (http : string -> option bytes) :
  let (r, w') := get_live now http w in
  CACHE w' = CACHE w
  \/ exists live,
       r = Returned (live, now) /\ live <> []
       /\ data (CACHE w') = live
       /\ last_refreshed (CACHE w') = Some now
       /\ previous_data (CACHE w') = data (CACHE w).
Proof.
  pose proof (call_outcome w now http) as H.
  destruct (get_live now http w) as [r w']. simpl in H.
  destruct H as [w' E | e w' E | ft vs w' Hv E]; [now left | now left |].
  right. eexists. split; [reflexivity|]. rewrite E. simpl.
  split; [now apply merged_not_nil|auto].
Qed.

(** X2.  What a call returns is what the cache holds when it is over: the
    snapshot is the cached one, and the time is the cached time of refresh,
    or the time of the call while there is none. *)
Theorem returned_snapshot_is_cached (w : World) (now : Z)
  (http : string -> option bytes) (snapshot : list LiveRow) (asof : Z) :
  fst (get_live now http w) = Returned (snapshot, asof) ->
  let c' := CACHE (snd (get_live now http w)) in
  snapshot = data c'
  /\ asof = match last_refreshed c' with Some t => t | None => now end.
Proof.
  pose proof (call_outcome w now http) as H. intros E. rewrite E in H.
  cbv zeta. destruct (get_live now http w) as [r w1]. simpl in *. clear E.
  inversion H; subst;
    match goal with Hc : CACHE w1 = _ |- _ => rewrite Hc end;
    split; reflexivity.
Qed.

End CallEffects.

(* ================================================================= *)
(** ** Invariants of the cache over a run, and the page it allows *)

Section RunInvariants.
Import Py Feed FlaskApp RefreshFacts Runs.

Variable ParseFromString : bytes -> option FeedMessage.
Variable strftime : Z -> result string.
Variable mean : list float -> float.

Local Abbreviation get_live := (get_live_bus_data ParseFromString strftime).
Local Abbreviation serve_index := (index ParseFromString strftime mean).

Lemma trip_update_rows_status (ft : FeedMessage) (u : UpdateRow) :
  In u (trip_update_rows ft) -> u_status u = delay_status (u_delay u).
Proof.
  unfold trip_update_rows. rewrite in_flat_map. intros (e & _ & Hu).
  unfold update_rows in Hu.
  destruct (trip_update e) as [tu|]; [|contradiction].
  destruct (stop_time_update tu) as [|stu rest]; [contradiction|].
  destruct Hu as [<- | []]. reflexivity.
Qed.

Lemma merged_rows_consistent (updates_df : list UpdateRow) (v : VehicleRow) :
  (forall u, In u updates_df -> u_status u = delay_status (u_delay u)) ->
  Forall row_consistent (merged_rows updates_df v).
Proof.
  intros Hu. unfold merged_rows, join_row.
  destruct (matches v updates_df) as [|u ms] eqn:E.
  - repeat constructor.
  - rewrite map_map. apply Forall_forall. intros r Hr.
    apply in_map_iff in Hr. destruct Hr as (u' & <- & Hin).
    assert (Hm : In u' (matches v updates_df)) by now rewrite E.
    unfold matches in Hm. apply filter_In in Hm. destruct Hm as [Hm _].
    split; [|now split]. simpl. now apply Hu.
Qed.

Lemma snapshot_consistent (ft : FeedMessage) (vehicles_df : list VehicleRow) :
  Forall row_consistent
    (flat_map (merged_rows (trip_update_rows ft)) vehicles_df).
Proof.
  apply Forall_flat_map, Forall_forall. intros v _.
  apply merged_rows_consistent. intros u. apply trip_update_rows_status.
Qed.

Lemma call_keeps_consistency (w : World) (now : Z) (http : string -> option bytes) :
  cache_consistent (CACHE w) ->
  cache_consistent (CACHE (snd (get_live now http w))).
Proof.
  intros Hc. pose proof (call_outcome ParseFromString strftime w now http) as H.
  revert H. generalize (fst (get_live now http w)) (snd (get_live now http w)).
  intros r w1 H. destruct H as [w1 E | e w1 E | ft vs w1 Hv E]; rewrite E; try assumption.
  destruct Hc as (Hd & _ & _ & _). repeat split; simpl.
  - apply snapshot_consistent.
  - exact Hd.
  - discriminate.
  - discriminate.
  - intros _. now apply merged_not_nil.
Qed.

(** X3.  Whatever calls the process has served since it started, and however
    they ended, every row of the current and of the previous snapshot has the
    status of its own delay (Delayed above 300, Early below -60, On Time
    otherwise), the route name cut from its own route id and the region of
    its own latitude; and the cache holds a snapshot exactly when it holds
    the time of a refresh. *)
Theorem cache_consistent_over_runs (calls : list Call) :
  let c := CACHE (after_calls ParseFromString strftime calls startup) in
  Forall row_consistent (data c)
  /\ Forall row_consistent (previous_data c)
  /\ (last_refreshed c = None <-> data c = []).
Proof.
  assert (G : forall w, cache_consistent (CACHE w) ->
                        cache_consistent (CACHE (after_calls ParseFromString strftime calls w))).
  { induction calls as [|[now http] rest IH]; intros w Hw; [exact Hw|].
    simpl. apply IH. now apply call_keeps_consistency. }
  assert (S : cache_consistent (CACHE startup)).
  { repeat split; simpl; auto; congruence. }
  specialize (G startup S). cbv zeta.
  destruct G as (Hd & Hp & Hnone & Hsome).
  split; [exact Hd|]. split; [exact Hp|]. split.
  - intros E. now apply Hnone.
  - intros E. destruct (last_refreshed _) eqn:L; [|reflexivity].
    exfalso. apply Hsome; [discriminate|exact E].
Qed.

Lemma index_by_cases (w : World) (now : Z) (http : string -> option bytes)
  (args : list (string * string)) :
  serve_index now http args w
  = match get_live now http w with
    | (Returned (master_df, refreshed), w1) =>
        if empty master_df
        then (Returned (ServiceUnavailable
                "Could not retrieve live bus data at the moment. Please try again later."),
              w1)
        else (page_or_error mean
                (index_view master_df (previous_data (CACHE w1)) refreshed args), w1)
    | (Raised e, w1) => (Raised e, w1)
    end.
Proof.
  unfold index, bind. destruct (get_live now http w) as [[[m t]|e] w1]; [|reflexivity].
  destruct (empty m); reflexivity.
Qed.

Lemma page_or_error_not_unavailable (ctx : Context) (body : string) :
  page_or_error mean ctx <> Returned (ServiceUnavailable body).
Proof.
  unfold page_or_error. destruct (make_map mean (rows ctx)); discriminate.
Qed.

(** X4.  The route answers 503 only while the cache has no snapshot.  Once
    it has one, no call is answered 503, whatever the network does; while it
    has none, a call whose fetch fails, or whose payloads decode to no
    vehicle, is answered 503 and leaves the cache as it is. *)
Theorem service_unavailable_only_without_snapshot (w : World) (now : Z)
  (http : string -> option bytes) (args : list (string * string)) :
  (data (CACHE w) <> [] ->
     forall body, fst (serve_index now http args w) <> Returned (ServiceUnavailable body))
  /\ (data (CACHE w) = [] ->
      fetch_failed http \/
        (exists fv ft, feeds_decode ParseFromString http fv ft
                       /\ vehicle_rows strftime fv = Returned []) ->
      exists body,
        fst (serve_index now http args w) = Returned (ServiceUnavailable body)
        /\ CACHE (snd (serve_index now http args w)) = CACHE w).
Proof.
  rewrite index_by_cases. split.
  - intros Hne body.
    pose proof (call_outcome ParseFromString strftime w now http) as H.
    destruct (get_live now http w) as [r w1]. simpl in H.
    destruct H as [w1 E | e w1 E | ft vs w1 Hv E].
    + unfold served_from_cache. destruct (data (CACHE w)); [congruence|].
      simpl. apply page_or_error_not_unavailable.
    + simpl. discriminate.
    + pose proof (merged_not_nil (trip_update_rows ft) _ Hv) as Hl.
      destruct (flat_map _ _); [congruence|]. simpl.
      apply page_or_error_not_unavailable.
  - intros Hnil Hfail.
    assert (E : exists w1, get_live now http w = (served_from_cache (CACHE w) now, w1)
                           /\ CACHE w1 = CACHE w).
    { destruct (fresh_or_stale (CACHE w) now) as [(t & Ht & Hlt) | Hs].
      - exists w. rewrite (fresh_call _ _ w t now http Ht Hlt).
        unfold served_from_cache. rewrite Ht. auto.
      - exists (after_attempt w). split; [|reflexivity].
        rewrite stale_call by assumption.
        destruct Hfail as [Hf | (fv & ft & Hd & He)].
        + now apply refresh_fetch_failed.
        + now apply (refresh_no_vehicles _ _ w now http fv ft). }
    destruct E as (w1 & -> & Ec). unfold served_from_cache. rewrite Hnil. simpl.
    eexists. split; [reflexivity|exact Ec].
Qed.

(** X5.  The time the page announces for the next refresh is the time of
    its snapshot plus the refresh interval.  On a request served inside the
    cache window it lies after the call.  On a request served after a
    refresh attempt that failed, it does not: it lies sixty seconds after
    the last refresh that went through, which the call is already past.  In
    both cases the route answers with the page of that context, or with the
    [ValueError] of folium when a position to draw is not a number. *)
Theorem announced_next_refresh (w : World) (t now : Z)
  (http : string -> option bytes) (args : list (string * string)) :
  last_refreshed (CACHE w) = Some t -> data (CACHE w) <> [] ->
  let ctx := index_view (data (CACHE w)) (previous_data (CACHE w)) t args in
  last_refreshed_time ctx = t
  /\ (now - t < 60 * second ->
      serve_index now http args w
      = (match make_map mean (rows ctx) with
         | Returned m => Returned (Page ctx m)
         | Raised e => Raised e
         end, w)
      /\ now < next_refresh (last_refreshed_time ctx))
  /\ (60 * second <= now - t -> fetch_failed http ->
      serve_index now http args w
      = (match make_map mean (rows ctx) with
         | Returned m => Returned (Page ctx m)
         | Raised e => Raised e
         end, after_attempt w)
      /\ next_refresh (last_refreshed_time ctx) <= now).
Proof.
  intros Ht Hne ctx. split; [reflexivity|]. rewrite index_by_cases. split.
  - intros Hlt. rewrite (fresh_call _ _ w t now http Ht Hlt).
    destruct (data (CACHE w)) as [|r rs] eqn:Ed; [congruence|]. simpl.
    split; [reflexivity|]. subst ctx. cbn [index_view last_refreshed_time].
    unfold next_refresh, REFRESH_INTERVAL_SECONDS. unfold second in Hlt. lia.
  - intros Hge Hf. rewrite stale_call by (unfold stale; now rewrite Ht).
    rewrite refresh_fetch_failed by assumption.
    unfold served_from_cache. rewrite Ht.
    destruct (data (CACHE w)) as [|r rs] eqn:Ed; [congruence|]. simpl.
    split; [reflexivity|]. subst ctx. cbn [index_view last_refreshed_time].
    unfold next_refresh, REFRESH_INTERVAL_SECONDS. unfold second in Hge. lia.
Qed.

End RunInvariants.

(* ================================================================= *)
(** ** The rows, counts and markers of the page *)

Section PageFacts.
Import Py Feed FlaskApp SortFacts ViewFacts Runs.

Lemma nil_of_no_member {A : Type} (l : list A) : (forall x, ~ In x l) -> l = [].
Proof.
  destruct l as [|a l]; [reflexivity|]. intros H. exfalso. apply (H a). now left.
Qed.

Lemma join_prev_row (previous_df : list LiveRow) (r : LiveRow) (v : ViewRow) :
  In v (join_prev previous_df r) -> row v = r.
Proof.
  unfold join_prev. destruct (prev_matches r previous_df) as [|p ps].
  - intros [<- | []]. reflexivity.
  - intros H. apply in_map_iff in H. destruct H as (q & <- & _). reflexivity.
Qed.

Lemma with_previous_row_In (filtered_df previous_df : list LiveRow) (r : LiveRow) :
  In r (map row (with_previous filtered_df previous_df)) <-> In r filtered_df.
Proof.
  split; [|apply with_previous_rows].
  rewrite in_map_iff. intros (v & <- & Hv). unfold with_previous in Hv.
  destruct (negb (empty previous_df)).
  - apply in_flat_map in Hv. destruct Hv as (r & Hr & Hv).
    now rewrite (join_prev_row _ _ _ Hv).
  - apply in_map_iff in Hv. destruct Hv as (r & <- & Hr). exact Hr.
Qed.

Lemma filter_vehicle_In (df : list LiveRow) (vehicle : string) (r : LiveRow) :
  In r (filter_vehicle df vehicle)
  <-> In r df /\ (vehicle = "All" \/ row_vehicle_id r = vehicle).
Proof.
  unfold filter_vehicle. destruct (String.eqb_spec vehicle "All") as [E|N]; simpl.
  - tauto.
  - rewrite filter_In, String.eqb_eq. tauto.
Qed.

Lemma prev_matches_distinct (previous_df : list LiveRow) (r : LiveRow) :
  NoDup (map row_vehicle_id previous_df) ->
  prev_matches r previous_df = [] \/ exists p, prev_matches r previous_df = [p].
Proof.
  induction previous_df as [|p ps IH]; intros Hnd; [now left|].
  inversion Hnd as [|? ? Hnotin Hnd']; subst. unfold prev_matches. simpl.
  destruct (String.eqb_spec (row_vehicle_id p) (row_vehicle_id r)) as [E|N].
  - right. exists p. f_equal. apply nil_of_no_member. intros q Hq.
    apply filter_In in Hq. destruct Hq as [Hq Heq]. apply String.eqb_eq in Heq.
    apply Hnotin. rewrite E, <- Heq. now apply in_map.
  - now apply IH.
Qed.

Lemma with_previous_length (filtered_df previous_df : list LiveRow) :
  (List.length filtered_df <= List.length (with_previous filtered_df previous_df))%nat.
Proof.
  unfold with_previous. destruct (negb (empty previous_df)).
  - induction filtered_df as [|r rs IH]; [apply Nat.le_refl|].
    cbn [flat_map]. rewrite length_app. simpl.
    assert (1 <= List.length (join_prev previous_df r))%nat.
    { unfold join_prev. destruct (prev_matches r previous_df); simpl; lia. }
    lia.
  - rewrite length_map. apply Nat.le_refl.
Qed.

Lemma with_previous_distinct (filtered_df previous_df : list LiveRow) :
  NoDup (map row_vehicle_id previous_df) ->
  map row (with_previous filtered_df previous_df) = filtered_df.
Proof.
  intros Hnd. unfold with_previous. destruct (negb (empty previous_df)).
  - induction filtered_df as [|r rs IH]; [reflexivity|].
    cbn [flat_map]. rewrite map_app, IH. unfold join_prev.
    destruct (prev_matches_distinct previous_df r Hnd) as [-> | [p ->]]; reflexivity.
  - rewrite map_map. simpl. apply map_id.
Qed.

Lemma no_previous_no_paths (mean : list float -> float)
  (filtered_df : list LiveRow) :
  Forall (fun v => lat_prev v = None /\ lon_prev v = None)
    (with_previous filtered_df [])
  /\ forall m, make_map mean (with_previous filtered_df []) = Returned m ->
               map_paths m = [].
Proof.
  unfold with_previous. simpl. split.
  - apply Forall_forall. intros v Hv. apply in_map_iff in Hv.
    destruct Hv as (r & <- & _). now split.
  - intros m E. apply make_map_returned in E. destruct E as (_ & -> & _).
    induction filtered_df as [|r rs IH]; [reflexivity|]. exact IH.
Qed.

Lemma args_get_other (args : list (string * string)) (k v key default : string) :
  k <> key -> args_get ((k, v) :: args) key default = args_get args key default.
Proof.
  intros N. simpl. now destruct (String.eqb_spec k key).
Qed.

Lemma args_getlist_other (args : list (string * string)) (k v key : string) :
  k <> key -> args_getlist ((k, v) :: args) key = args_getlist args key.
Proof.
  intros N. unfold args_getlist. simpl. now destruct (String.eqb_spec k key).
Qed.

Lemma shown_rows_helper (master_df previous_df : list LiveRow) (refreshed : Z)
  (args : list (string * string)) (r : LiveRow) :
  In r (map row (rows (index_view master_df previous_df refreshed args)))
  <-> In r master_df
      /\ in_region (args_get args "region" "Gold Coast") r
      /\ on_route (args_get args "route" "700") r
      /\ In (status r)
           (sel_status (selected_filters
                          (index_view master_df previous_df refreshed args)))
      /\ (args_get args "vehicle" "All" = "All"
          \/ row_vehicle_id r = args_get args "vehicle" "All").
Proof.
  cbn [index_view rows selected_filters sel_status].
  rewrite with_previous_row_In, filter_vehicle_In, df_for_vehicle_options_In.
  tauto.
Qed.

(** X6.  The rows of the page are the rows of the snapshot that pass every
    filter: the selected region, the selected route, one of the selected
    statuses and the selected vehicle, "All" standing for no restriction on
    region, route and vehicle.  No row that passes is left out and no other
    row is shown. *)
Theorem shown_rows (master_df previous_df : list LiveRow) (refreshed : Z)
  (args : list (string * string)) (r : LiveRow) :
  let ctx := index_view master_df previous_df refreshed args in
  In r (map row (rows ctx))
  <-> In r master_df
      /\ in_region (args_get args "region" "Gold Coast") r
      /\ on_route (args_get args "route" "700") r
      /\ In (status r) (sel_status (selected_filters ctx))
      /\ (args_get args "vehicle" "All" = "All"
          \/ row_vehicle_id r = args_get args "vehicle" "All").
Proof.
  intros ctx. split.
  - intros H. apply shown_rows_helper in H. exact H.
  - intros H. apply shown_rows_helper. exact H.
Qed.

(** X7.  When no row of the snapshot passes every filter the page shows no
    bus: it has no row, counts zero and carries the no-match message in place
    of a map, folium not being called.  When no row is of the selected region and route, as with the
    default request while no bus runs route 700 on the Gold Coast, there is
    no status to choose and "All" is the only vehicle option. *)
Theorem page_without_match (mean : list float -> float)
  (master_df previous_df : list LiveRow) (refreshed : Z)
  (args : list (string * string)) :
  let ctx := index_view master_df previous_df refreshed args in
  let reg := args_get args "region" "Gold Coast" in
  let route := args_get args "route" "700" in
  let vehicle := args_get args "vehicle" "All" in
  ((forall r, In r master_df ->
      ~ (in_region reg r /\ on_route route r
         /\ In (status r) (sel_status (selected_filters ctx))
         /\ (vehicle = "All" \/ row_vehicle_id r = vehicle))) ->
   rows ctx = [] /\ tracked_buses_count ctx = 0%nat
   /\ make_map mean (rows ctx)
      = Returned (NoMatch "<p>No buses match the current filter criteria.</p>"))
  /\ ((forall r, In r master_df -> ~ (in_region reg r /\ on_route route r)) ->
      status_options ctx = [] /\ vehicle_options ctx = ["All"]).
Proof.
  intros ctx reg route vehicle. split.
  - intros Hno.
    assert (E : rows ctx = []).
    { assert (M : map row (rows ctx) = []).
      { apply nil_of_no_member. intros r Hr.
        apply (shown_rows_helper master_df previous_df refreshed args r) in Hr.
        apply (Hno r); tauto. }
      now destruct (rows ctx). }
    subst ctx. cbn [index_view rows tracked_buses_count] in *.
    rewrite E. repeat split.
  - intros Hno.
    assert (E : df_for_status_options master_df reg route = []).
    { apply nil_of_no_member. intros r Hr. apply df_for_status_options_In in Hr.
      apply (Hno r); tauto. }
    subst ctx. cbn [index_view status_options vehicle_options].
    fold reg route. unfold status_options_of, df_for_vehicle_options.
    rewrite E. split; reflexivity.
Qed.

End PageFacts.

Section PageCounts.
Import Py Feed FlaskApp RefreshFacts SortFacts ViewFacts Runs.

(** X8.  The count of tracked buses is the number of rows drawn, which is at
    least the number of snapshot rows that pass the filters: the join with
    the previous snapshot repeats a row once per previous row of its vehicle
    id.  When no vehicle id occurs twice in the previous snapshot, the rows
    drawn are exactly the rows that pass the filters and the count is their
    number. *)
Theorem tracked_buses_counted (master_df previous_df : list LiveRow) (refreshed : Z)
  (args : list (string * string)) :
  let ctx := index_view master_df previous_df refreshed args in
  let passing :=
    filter_vehicle
      (df_for_vehicle_options master_df (args_get args "region" "Gold Coast")
         (args_get args "route" "700") (sel_status (selected_filters ctx)))
      (args_get args "vehicle" "All") in
  tracked_buses_count ctx = List.length (rows ctx)
  /\ (List.length passing <= tracked_buses_count ctx)%nat
  /\ (NoDup (map row_vehicle_id previous_df) ->
      map row (rows ctx) = passing
      /\ tracked_buses_count ctx = List.length passing).
Proof.
  cbn [index_view rows tracked_buses_count selected_filters sel_status].
  split; [reflexivity|]. split; [apply with_previous_length|].
  intros Hnd. pose proof (with_previous_distinct
    (filter_vehicle
       (df_for_vehicle_options master_df (args_get args "region" "Gold Coast")
          (args_get args "route" "700")
          (resolve_status (args_getlist args "status")
             (status_options_of master_df (args_get args "region" "Gold Coast")
                (args_get args "route" "700"))))
       (args_get args "vehicle" "All")) previous_df Hnd) as E.
  split; [exact E|]. rewrite <- E at 2. now rewrite length_map.
Qed.

(** X9.  When the map is drawn it has one marker for every row of the view,
    in order, at the row's position, which is made of numbers.  On a row
    whose status is that of its delay, as every row of a snapshot is, the
    marker is red exactly when the delay is above 300 seconds, blue exactly
    when it is below -60, and green otherwise. *)
Theorem marker_colours (mean : list float -> float) (view : list ViewRow)
  (m : MapHtml) :
  make_map mean view = Returned m ->
  List.length (map_markers m) = List.length view
  /\ Forall2 (fun v mk =>
       located (row v) = true
       /\ location mk = (row_lat (row v), row_lon (row v))
       /\ (row_consistent (row v) ->
           (color mk = "red" <-> delay (row v) > 300)
           /\ (color mk = "blue" <-> delay (row v) < -60)
           /\ (color mk = "green" <-> -60 <= delay (row v) <= 300)))
      view (map_markers m).
Proof.
  intros E. apply make_map_returned in E. destruct E as (Hall & _ & ->).
  split; [apply length_map|].
  induction Hall as [|v rest [Hloc _] _ IH]; [constructor|].
  cbn [map]. constructor; [|exact IH].
  split; [exact Hloc|]. split; [reflexivity|].
  intros (Hst & _). unfold marker_of. cbn [color]. rewrite Hst.
  unfold delay_status, marker_color.
  destruct (Z.gtb_spec (delay (row v)) 300) as [Hgt|Hle];
    [|destruct (Z.ltb_spec (delay (row v)) (-60)) as [Hlt|Hge]];
    cbn; repeat split; intros; first [reflexivity | lia | discriminate].
Qed.

(** X10.  Every vehicle offered in the vehicle options other than "All"
    selects at least one bus: the same request with that vehicle shows a
    non-empty page, and every row of it is of that vehicle. *)
Theorem vehicle_option_selects_a_bus (master_df previous_df : list LiveRow)
  (refreshed : Z) (args : list (string * string)) (v : string) :
  In v (vehicle_options (index_view master_df previous_df refreshed args)) ->
  v <> "All" ->
  let page := index_view master_df previous_df refreshed (("vehicle", v) :: args) in
  rows page <> []
  /\ Forall (fun x => row_vehicle_id (row x) = v) (rows page)
  /\ vehicle_options page
     = vehicle_options (index_view master_df previous_df refreshed args).
Proof.
  intros Hin Hv page. subst page.
  set (args' := ("vehicle", v) :: args).
  assert (Ereg : forall d, args_get args' "region" d
                           = args_get args "region" d)
    by (intros d; subst args'; now apply args_get_other).
  assert (Eroute : forall d, args_get args' "route" d
                             = args_get args "route" d)
    by (intros d; subst args'; now apply args_get_other).
  assert (Est : args_getlist args' "status"
                = args_getlist args "status")
    by (subst args'; now apply args_getlist_other).
  assert (Eveh : args_get args' "vehicle" "All" = v) by reflexivity.
  assert (Esel : sel_status (selected_filters
                               (index_view master_df previous_df refreshed args'))
                 = sel_status (selected_filters
                                 (index_view master_df previous_df refreshed args))).
  { cbn [index_view selected_filters sel_status].
    now rewrite Ereg, Eroute, Est. }
  cbn [index_view vehicle_options] in Hin.
  destruct Hin as [Hall | Hin]; [congruence|].
  apply sorted_In, unique_In, in_map_iff in Hin. destruct Hin as (r & Hid & Hr).
  apply df_for_vehicle_options_In in Hr.
  assert (Hshown : In r (map row (rows (index_view master_df previous_df
                                          refreshed args')))).
  { apply shown_rows_helper. rewrite Ereg, Eroute, Eveh, Esel.
    cbn [index_view selected_filters sel_status]. tauto. }
  split; [|split].
  - intros E. rewrite E in Hshown. exact Hshown.
  - apply Forall_forall. intros x Hx.
    assert (Hrow : In (row x) (map row (rows (index_view master_df previous_df
                                                refreshed args'))))
      by now apply in_map.
    apply shown_rows_helper in Hrow. rewrite Eveh in Hrow.
    destruct Hrow as (_ & _ & _ & _ & [E | E]); congruence.
  - cbn [index_view vehicle_options]. now rewrite Ereg, Eroute, Est.
Qed.

Variable ParseFromString : bytes -> option FeedMessage.
Variable strftime : Z -> result string.
Variable mean : list float -> float.

(** X11.  The request that fills an empty cache draws no movement path: the
    previous snapshot is still empty after that refresh, so every row to
    draw has empty previous coordinates and the map, when folium draws it,
    has no path.  Paths can appear from the second refresh that goes
    through. *)
Theorem first_page_draws_no_path (w : World) (now : Z)
  (http : string -> option bytes) (args : list (string * string))
  (fv ft : FeedMessage) (vehicles_df : list VehicleRow) :
  data (CACHE w) = [] -> stale (CACHE w) now ->
  feeds_decode ParseFromString http fv ft ->
  vehicle_rows strftime fv = Returned vehicles_df -> vehicles_df <> [] ->
  trip_update_rows ft <> [] ->
  exists live w',
    get_live_bus_data ParseFromString strftime now http w = (Returned (live, now), w')
    /\ previous_data (CACHE w') = []
    /\ let ctx := index_view live [] now args in
       index ParseFromString strftime mean now http args w
       = (match make_map mean (rows ctx) with
          | Returned m => Returned (Page ctx m)
          | Raised e => Raised e
          end, w')
       /\ Forall (fun v => lat_prev v = None /\ lon_prev v = None) (rows ctx)
       /\ forall m, make_map mean (rows ctx) = Returned m -> map_paths m = [].
Proof.
  intros Hnil Hs Hd Ev Hv Hu.
  destruct (refresh_swaps_snapshots _ _ w now http fv ft vehicles_df Hs Hd Ev Hv Hu)
    as (live & w' & E & Hl & _ & Hp & _).
  assert (Hne : live <> []) by (rewrite Hl; now apply merged_not_nil).
  rewrite Hnil in Hp.
  exists live, w'. split; [exact E|]. split; [exact Hp|]. cbv zeta.
  split.
  - rewrite (index_serves_view _ _ mean w w' now now http args live E Hne).
    now rewrite Hp.
  - cbn [index_view rows]. apply no_previous_no_paths.
Qed.

End PageCounts.

(* ================================================================= *)
(** ** Route names, decoded records, and the search path *)

Section Decoding.
Import Py Feed FlaskApp WsgiApp.

(** The character [c] occurs in [s]. *)
Definition occurs (c : ascii) (s : string) : Prop :=
  In c (list_ascii_of_string s).

Lemma split_first_no_sep (sep : ascii) (s : string) :
  ~ occurs sep (split_first sep s).
Proof.
  unfold occurs. induction s as [|c s IH]; simpl; [tauto|].
  destruct (Ascii.eqb_spec c sep) as [E|N]; simpl; [tauto|].
  intros [H | H]; [congruence|contradiction].
Qed.

Lemma split_first_rest (sep : ascii) (s : string) :
  exists rest, s = String.append (split_first sep s) rest
               /\ (rest = EmptyString \/ exists tail, rest = String sep tail).
Proof.
  induction s as [|c s (rest & E & Hrest)]; simpl.
  - exists EmptyString. auto.
  - destruct (Ascii.eqb_spec c sep) as [-> | N].
    + exists (String sep s). split; [reflexivity|]. right. eauto.
    + exists rest. simpl. split; [now rewrite <- E|exact Hrest].
Qed.

Lemma split_first_cut (sep : ascii) (a b : string) :
  ~ occurs sep a -> split_first sep (String.append a (String sep b)) = a.
Proof.
  unfold occurs. induction a as [|c a IH]; simpl; intros H.
  - now rewrite Ascii.eqb_refl.
  - destruct (Ascii.eqb_spec c sep) as [E|N]; [exfalso; auto|].
    f_equal. apply IH. tauto.
Qed.

Lemma split_first_whole (sep : ascii) (s : string) :
  ~ occurs sep s -> split_first sep s = s.
Proof.
  unfold occurs. induction s as [|c s IH]; simpl; intros H; [reflexivity|].
  destruct (Ascii.eqb_spec c sep) as [E|N]; [exfalso; auto|].
  f_equal. apply IH. tauto.
Qed.

(** X12.  The route name of a snapshot row is the part of its route id
    before the first dash: it holds no dash, the route id is the route name
    followed by nothing or by a dash and a tail, a route id without a dash is
    its own route name, and an id made of a dash-free name, a dash and any
    tail has that name. *)
Theorem route_name_before_first_dash (j : JoinedRow) :
  let id := route_id (j_vehicle j) in
  let name := route_name (live_row j) in
  ~ occurs "-"%char name
  /\ (exists rest, id = String.append name rest
                   /\ (rest = EmptyString \/ exists tail, rest = String "-"%char tail))
  /\ (~ occurs "-"%char id -> name = id)
  /\ (forall a b, ~ occurs "-"%char a -> id = String.append a (String "-"%char b) ->
        name = a).
Proof.
  cbv zeta. cbn [live_row route_name]. split; [apply split_first_no_sep|].
  split; [apply split_first_rest|]. split; [apply split_first_whole|].
  intros a b Ha ->. now apply split_first_cut.
Qed.


Lemma collect_returned {A B : Type} (f : A -> result B) (l : list A) (ys : list B) :
  collect f l = Returned ys -> Forall2 (fun x y => f x = Returned y) l ys.
Proof.
  revert ys. induction l as [|x l IH]; intros ys; cbn [collect].
  - intros H; inversion H. constructor.
  - destruct (f x) as [y|e] eqn:Ex; simpl; [|discriminate].
    destruct (collect f l) as [zs|e] eqn:El; simpl; [|discriminate].
    intros H; inversion H; subst. constructor; [exact Ex|now apply IH].
Qed.

Lemma Forall2_in_l_exists {A B : Type} (R : A -> B -> Prop) (l : list A)
  (l' : list B) (x : A) :
  Forall2 R l l' -> In x l -> exists y, In y l' /\ R x y.
Proof.
  induction 1 as [|a b l l' Hab _ IH]; intros Hin; [contradiction|].
  destruct Hin as [<- | Hin].
  - exists b. split; [now left|exact Hab].
  - destruct (IH Hin) as (y & Hy & Hxy). exists y. split; [now right|exact Hxy].
Qed.

Lemma collect_raised {A B : Type} (f : A -> result B) (l : list A) (e : exn) :
  collect f l = Raised e -> exists x, In x l /\ f x = Raised e.
Proof.
  induction l as [|x l IH]; cbn [collect]; [discriminate|].
  destruct (f x) as [y|e1] eqn:Ex; simpl.
  - destruct (collect f l) as [zs|e2] eqn:El; simpl; [discriminate|].
    intros H; inversion H; subst. destruct (IH eq_refl) as (x' & Hin & Hx').
    exists x'. split; [now right|exact Hx'].
  - intros H; inversion H; subst. exists x. split; [now left|exact Ex].
Qed.

Lemma collect_all {A B : Type} (f : A -> result B) (l : list A) :
  (forall x, In x l -> exists y, f x = Returned y) ->
  exists ys, collect f l = Returned ys.
Proof.
  induction l as [|x l IH]; intros H; cbn [collect]; [eauto|].
  destruct (H x (or_introl eq_refl)) as [y ->]. simpl.
  destruct IH as [ys ->]; [intros x' Hx'; apply H; now right|]. simpl. eauto.
Qed.

(** X14.  [parse_vehicle_positions] builds its frame exactly when every
    timestamp the feed carries on a vehicle can be formatted; otherwise it
    raises what the formatter raised on one of them, and no frame is built.
    The frame has one row per entity that carries a vehicle, in feed order,
    with the trip id, route id, label, position, stop and status of that
    vehicle; its timestamp is "N/A" for a vehicle without a timestamp field
    and what the formatter returned otherwise.  The frame is empty exactly
    when no entity carries a vehicle. *)
Theorem vehicles_decoded (strftime : Z -> result string) (feed : FeedMessage) :
  let present := flat_map (fun e => match vehicle e with
                                    | Some v => [v]
                                    | None => []
                                    end) (entity feed) in
  ((exists rows, vehicle_rows strftime feed = Returned rows) <->
   forall v t, In v present -> vp_timestamp v = Some t ->
               exists s, strftime t = Returned s)
  /\ (forall e, vehicle_rows strftime feed = Raised e ->
        exists v t, In v present /\ vp_timestamp v = Some t /\ strftime t = Raised e)
  /\ (forall rows, vehicle_rows strftime feed = Returned rows ->
        Forall2 (fun v r =>
                   trip_id r = vp_trip_id v /\ route_id r = vp_route_id v
                   /\ vehicle_id r = vp_label v
                   /\ lat r = vp_latitude v /\ lon r = vp_longitude v
                   /\ stop_sequence r = vp_current_stop_sequence v
                   /\ stop_id r = vp_stop_id v
                   /\ current_status r = vp_current_status v
                   /\ match vp_timestamp v with
                      | Some t => strftime t = Returned (timestamp r)
                      | None => timestamp r = "N/A"
                      end)
          present rows)
  /\ (vehicle_rows strftime feed = Returned [] <->
      forall e, In e (entity feed) -> vehicle e = None).
Proof.
  cbv zeta. unfold vehicle_rows. fold (vehicles_present feed).
  assert (Row : forall v r, vehicle_row strftime v = Returned r ->
                  trip_id r = vp_trip_id v /\ route_id r = vp_route_id v
                  /\ vehicle_id r = vp_label v
                  /\ lat r = vp_latitude v /\ lon r = vp_longitude v
                  /\ stop_sequence r = vp_current_stop_sequence v
                  /\ stop_id r = vp_stop_id v
                  /\ current_status r = vp_current_status v
                  /\ match vp_timestamp v with
                     | Some t => strftime t = Returned (timestamp r)
                     | None => timestamp r = "N/A"
                     end).
  { intros v r. unfold vehicle_row, timestamp_cell.
    destruct (vp_timestamp v) as [t|].
    - destruct (strftime t) as [ts|e]; simpl; [|discriminate].
      intros H; inversion H; subst. simpl. now repeat split.
    - simpl. intros H; inversion H; subst. simpl. now repeat split. }
  split; [|split; [|split]].
  - split.
    + intros [rows E] v t Hv Ht. apply collect_returned in E.
      destruct (Forall2_in_l_exists _ _ _ _ E Hv) as (r & _ & Hr).
      apply Row in Hr. rewrite Ht in Hr. destruct Hr as (_&_&_&_&_&_&_&_&Hr). eauto.
    + intros H. apply collect_all. intros v Hv.
      unfold vehicle_row, timestamp_cell.
      destruct (vp_timestamp v) as [t|] eqn:Et; [|simpl; eauto].
      destruct (H v t Hv Et) as [ts ->]. simpl. eauto.
  - intros e E. apply collect_raised in E. destruct E as (v & Hv & Hr).
    unfold vehicle_row, timestamp_cell in Hr.
    destruct (vp_timestamp v) as [t|] eqn:Et; [|discriminate].
    exists v, t. split; [exact Hv|]. split; [exact Et|].
    destruct (strftime t); [discriminate|]. simpl in Hr. now inversion Hr.
  - intros rows E. apply collect_returned in E.
    eapply Forall2_impl; [|exact E]. intros v r Hr. now apply Row.
  - split.
    + intros E e He. apply collect_returned in E. inversion E as [Hnil|].
      destruct (vehicle e) as [v|] eqn:Ev; [|reflexivity].
      exfalso. apply (in_nil (a := v)). rewrite Hnil. unfold vehicles_present.
      apply in_flat_map. exists e. split; [exact He|]. rewrite Ev. now left.
    + intros H. assert (Hp : vehicles_present feed = []).
      { unfold vehicles_present. generalize (entity feed) H. clear H.
        induction l as [|e es IH]; intros H; [reflexivity|].
        cbn [flat_map]. rewrite (H e (or_introl eq_refl)). simpl.
        apply IH. intros e' He'. apply H. now right. }
      now rewrite Hp.
Qed.

(** X15.  After the two lines of [wsgi.py] the project directory is on the
    search path; it was put in front when it was missing and nothing was
    touched when it was there.  The entries that were on the path are kept
    in their order, and running the lines again changes nothing. *)
Theorem project_home_on_path (sys_path : list string) :
  In project_home (configure_path sys_path)
  /\ (~ In project_home sys_path -> configure_path sys_path = project_home :: sys_path)
  /\ (In project_home sys_path -> configure_path sys_path = sys_path)
  /\ configure_path (configure_path sys_path) = configure_path sys_path.
Proof.
  assert (D : existsb (String.eqb project_home) sys_path = true
              <-> In project_home sys_path).
  { rewrite existsb_exists. split.
    - intros (x & Hx & E). apply String.eqb_eq in E. now subst.
    - intros H. exists project_home. split; [exact H|apply String.eqb_refl]. }
  destruct (existsb (String.eqb project_home) sys_path) eqn:E.
  - assert (H : In project_home sys_path) by now apply D.
    assert (C : configure_path sys_path = sys_path)
      by (unfold configure_path; now rewrite E).
    rewrite !C. split; [exact H|]. split; [intros N; contradiction|].
    split; reflexivity.
  - assert (N : ~ In project_home sys_path).
    { intros H. apply D in H. congruence. }
    assert (C : configure_path sys_path = project_home :: sys_path)
      by (unfold configure_path; now rewrite E).
    rewrite !C. split; [now left|]. split; [reflexivity|].
    split; [intros H; contradiction|].
    unfold configure_path. cbn [existsb]. now rewrite String.eqb_refl.
Qed.

End Decoding.

(* ================================================================= *)
(** ** The latitude buckets on the float line *)


Section Buckets.
Import Py Feed FlaskApp.

Ltac order_cases a b x :=
  rewrite ?ltb_spec, ?leb_spec, ?FloatAxioms.eqb_spec;
  destruct (Prim2SF a) as [[|]|[|]| |[|] ? ?],
           (Prim2SF b) as [[|]|[|]| |[|] ? ?],
           (Prim2SF x) as [[|]|[|]| |[|] ? ?];
  unfold SFltb, SFleb, SFeqb, SFcompare; try discriminate;
  rewrite ?Pos.compare_cont_spec; simpl;
  repeat match goal with
         | |- context [Z.compare ?u ?v] =>
             destruct (Z.compare_spec u v); simpl; try discriminate
         | |- context [Pos.compare ?u ?v] =>
             destruct (Pos.compare_spec u v); simpl; try discriminate
         end;
  try discriminate; intros; subst; try lia.

(** No float lies between [a] and a smaller [b]. *)
Lemma no_float_between (a b x : float) :
  PrimFloat.ltb b a = true ->
  PrimFloat.leb a x = true -> PrimFloat.leb x b = true -> False.
Proof. order_cases a b x. Qed.

Lemma no_float_from_below (a b x : float) :
  PrimFloat.leb b a = true ->
  PrimFloat.leb a x = true -> PrimFloat.ltb x b = true -> False.
Proof. order_cases a b x. Qed.

Lemma no_float_from_above (a b x : float) :
  PrimFloat.leb b a = true ->
  PrimFloat.ltb a x = true -> PrimFloat.leb x b = true -> False.
Proof. order_cases a b x. Qed.

Lemma nan_unordered (a x : float) :
  PrimFloat.is_nan x = true ->
  PrimFloat.leb a x = false /\ PrimFloat.leb x a = false.
Proof.
  unfold PrimFloat.is_nan. rewrite negb_true_iff.
  rewrite !leb_spec, FloatAxioms.eqb_spec.
  destruct (Prim2SF a) as [[|]|[|]| |[|] ? ?], (Prim2SF x) as [[|]|[|]| |[|] ? ?];
    unfold SFleb, SFeqb, SFcompare; try discriminate; auto;
    rewrite ?Pos.compare_cont_spec, ?Z.compare_refl, ?Pos.compare_refl;
    simpl; discriminate.
Qed.

Lemma region_of_no_bucket (x : float) :
  ~ within (-27.75) (-27.0) x -> ~ within (-28.2) (-27.78) x ->
  ~ within (-26.9) (-26.3) x -> categorize_region x = "Other".
Proof.
  intros B G S. unfold categorize_region.
  rewrite <- within_dec in B, G, S.
  apply not_true_is_false in B, G, S. now rewrite B, G, S.
Qed.

(** X16.  The three latitude buckets do not meet: no latitude is in two of
    them, so the order in which they are tried never decides the region.
    They do not cover the range they span either: a latitude strictly
    between -27.78 and -27.75, or strictly between -27.0 and -26.9, is in
    Other, as is every latitude below -28.2 or above -26.3 and a latitude
    that is not a number. *)
Theorem buckets_apart_with_gaps (x : float) :
  (within (-27.75) (-27.0) x ->
     ~ within (-28.2) (-27.78) x /\ ~ within (-26.9) (-26.3) x)
  /\ (within (-28.2) (-27.78) x -> ~ within (-26.9) (-26.3) x)
  /\ (PrimFloat.ltb (-27.78) x = true -> PrimFloat.ltb x (-27.75) = true ->
      categorize_region x = "Other")
  /\ (PrimFloat.ltb (-27.0) x = true -> PrimFloat.ltb x (-26.9) = true ->
      categorize_region x = "Other")
  /\ (PrimFloat.ltb x (-28.2) = true -> categorize_region x = "Other")
  /\ (PrimFloat.ltb (-26.3) x = true -> categorize_region x = "Other")
  /\ (PrimFloat.is_nan x = true -> categorize_region x = "Other").
Proof.
  unfold within. repeat apply conj.
  - intros [B1 B2]. split; intros [G1 G2].
    + exact (no_float_between (-27.75) (-27.78) x eq_refl B1 G2).
    + exact (no_float_between (-26.9) (-27.0) x eq_refl G1 B2).
  - intros [G1 G2] [S1 S2].
    exact (no_float_between (-26.9) (-27.78) x eq_refl S1 G2).
  - intros L U. apply region_of_no_bucket; intros [H1 H2].
    + exact (no_float_from_below (-27.75) (-27.75) x eq_refl H1 U).
    + exact (no_float_from_above (-27.78) (-27.78) x eq_refl L H2).
    + exact (no_float_from_below (-26.9) (-27.75) x eq_refl H1 U).
  - intros L U. apply region_of_no_bucket; intros [H1 H2].
    + exact (no_float_from_above (-27.0) (-27.0) x eq_refl L H2).
    + exact (no_float_from_above (-27.0) (-27.78) x eq_refl L H2).
    + exact (no_float_from_below (-26.9) (-26.9) x eq_refl H1 U).
  - intros U. apply region_of_no_bucket; intros [H1 H2].
    + exact (no_float_from_below (-27.75) (-28.2) x eq_refl H1 U).
    + exact (no_float_from_below (-28.2) (-28.2) x eq_refl H1 U).
    + exact (no_float_from_below (-26.9) (-28.2) x eq_refl H1 U).
  - intros L. apply region_of_no_bucket; intros [H1 H2].
    + exact (no_float_from_above (-26.3) (-27.0) x eq_refl L H2).
    + exact (no_float_from_above (-26.3) (-27.78) x eq_refl L H2).
    + exact (no_float_from_above (-26.3) (-26.3) x eq_refl L H2).
  - intros N. apply region_of_no_bucket; intros [H1 H2].
    + destruct (nan_unordered (-27.75) x N) as [E _]. congruence.
    + destruct (nan_unordered (-28.2) x N) as [E _]. congruence.
    + destruct (nan_unordered (-26.9) x N) as [E _]. congruence.
Qed.

End Buckets.

(* ================================================================= *)
(** ** The requests of a run, and the statements on the sample feeds *)

Section RunRequests.
Import Py Feed FlaskApp RefreshFacts Runs Samples ViewFacts.

Variable ParseFromString : bytes -> option FeedMessage.
Variable strftime : Z -> result string.

Lemma call_requests (w : World) (now : Z) (http : string -> option bytes) :
  let w' := snd (get_live_bus_data ParseFromString strftime now http w) in
  requested w' = requested w
  \/ requested w' = requested w ++ [VEHICLE_POSITIONS_URL; TRIP_UPDATES_URL].
Proof.
  cbv zeta. destruct (fresh_or_stale (CACHE w) now) as [(t & Ht & Hlt) | Hs].
  - left. now rewrite (fresh_call _ _ w t now http Ht Hlt).
  - right. rewrite stale_call by assumption. apply refresh_requests.
Qed.

(** X17.  Over any run of the process the feeds are requested in pairs, the
    vehicle feed then the trip-update feed, at most one pair per call: a
    call never requests one feed without the other, not even when the first
    request fails, and never requests a feed twice. *)
Theorem requests_come_in_pairs (calls : list Call) :
  exists attempts : nat,
    requested (after_calls ParseFromString strftime calls startup)
    = List.concat (repeat [VEHICLE_POSITIONS_URL; TRIP_UPDATES_URL] attempts)
    /\ (attempts <= List.length calls)%nat.
Proof.
  assert (G : forall w k,
             requested w = List.concat (repeat [VEHICLE_POSITIONS_URL; TRIP_UPDATES_URL] k) ->
             exists n,
               requested (after_calls ParseFromString strftime calls w)
               = List.concat (repeat [VEHICLE_POSITIONS_URL; TRIP_UPDATES_URL] n)
               /\ (n <= k + List.length calls)%nat).
  { induction calls as [|[now http] rest IH]; intros w k Hw.
    - exists k. split; [exact Hw|]. simpl. lia.
    - simpl. destruct (call_requests w now http) as [E | E]; cbv zeta in E.
      + destruct (IH _ k (eq_trans E Hw)) as (n & Hn & Hle).
        exists n. split; [exact Hn|lia].
      + assert (Hw' : requested (snd (get_live_bus_data ParseFromString strftime
                                        now http w))
                      = List.concat (repeat [VEHICLE_POSITIONS_URL; TRIP_UPDATES_URL] (S k))).
        { rewrite E, Hw. replace (S k) with (k + 1)%nat by lia.
          rewrite repeat_app, List.concat_app. simpl. reflexivity. }
        destruct (IH _ (S k) Hw') as (n & Hn & Hle).
        exists n. split; [exact Hn|lia]. }
  destruct (G startup 0%nat eq_refl) as (n & Hn & Hle). exists n. auto.
Qed.

End RunRequests.

Section ExtrasOnSamples.
Import Py Feed FlaskApp RefreshFacts Runs Samples ViewFacts.

Local Abbreviation sample_live := (get_live_bus_data sample_parse sample_strftime).
Local Abbreviation sample_index := (index sample_parse sample_strftime sample_mean).

(** X2 on the first refresh of the sample process. *)
Lemma returned_snapshot_on_samples :
  data (CACHE warm_world) = data (CACHE (snd (sample_live t0 http_ok fresh_world)))
  /\ t0 = match last_refreshed (CACHE (snd (sample_live t0 http_ok fresh_world))) with
          | Some t => t
          | None => t0
          end.
Proof.
  apply (returned_snapshot_is_cached sample_parse sample_strftime fresh_world t0
           http_ok (data (CACHE warm_world)) t0).
  vm_compute. reflexivity.
Defined.

(** X4 on the empty cache with the network down. *)
Lemma service_unavailable_on_samples :
  exists body,
    fst (sample_index t0 (serve None None) args_all fresh_world)
    = Returned (ServiceUnavailable body)
    /\ CACHE (snd (sample_index t0 (serve None None) args_all fresh_world))
       = CACHE fresh_world.
Proof.
  apply (proj2 (service_unavailable_only_without_snapshot sample_parse sample_strftime
                  sample_mean fresh_world t0 (serve None None) args_all)).
  - reflexivity.
  - left. left. reflexivity.
Defined.

(** X5 two minutes after the refresh, with the network down. *)
Lemma announced_next_refresh_on_samples :
  exists m,
    sample_index (t0 + 120 * second) (serve None None) args_all warm_world
    = (Returned (Page first_context m), after_attempt warm_world)
    /\ next_refresh (last_refreshed_time first_context) <= t0 + 120 * second.
Proof.
  destruct (announced_next_refresh sample_parse sample_strftime sample_mean
              warm_world t0 (t0 + 120 * second) (serve None None) args_all
              warm_world_refreshed ltac:(vm_compute; discriminate))
    as (_ & _ & Hlate).
  destruct Hlate as [E Hle].
  - vm_compute. discriminate.
  - left. reflexivity.
  - destruct first_map_drawn as [m Hm]. exists m. fold first_context in E, Hle.
    rewrite Hm in E. split; assumption.
Defined.

(** X7 on the default request, Gold Coast and route 700, with a snapshot whose
    only bus is in Brisbane. *)
Lemma page_without_match_on_samples :
  status_options (index_view [bus_at "B202" (-27.5) 153.02] [] t0 []) = []
  /\ vehicle_options (index_view [bus_at "B202" (-27.5) 153.02] [] t0 []) = ["All"].
Proof.
  apply (proj2 (page_without_match sample_mean [bus_at "B202" (-27.5) 153.02] [] t0 [])).
  intros r [<- | []] [[H | H] _]; vm_compute in H; discriminate H.
Defined.

(** X9 on the first page of the sample process: the late Gold Coast bus is
    red, the Brisbane bus green. *)
Lemma marker_colours_on_samples :
  exists m,
    make_map sample_mean (rows first_context) = Returned m
    /\ List.length (map_markers m) = List.length (rows first_context)
    /\ map color (map_markers m) = ["red"; "green"].
Proof.
  destruct first_map_drawn as [m Hm]. exists m. split; [exact Hm|].
  split; [exact (proj1 (marker_colours sample_mean (rows first_context) m Hm))|].
  revert Hm. vm_compute. intros Hm. inversion Hm. reflexivity.
Defined.

(** X10 on the first page of the sample process. *)
Lemma vehicle_option_on_samples :
  rows (index_view (data (CACHE warm_world)) [] t0 (("vehicle", "B202") :: args_all))
  <> [].
Proof.
  apply (vehicle_option_selects_a_bus (data (CACHE warm_world)) [] t0 args_all "B202").
  - vm_compute. right. left. reflexivity.
  - discriminate.
Defined.

(** X11 on the first page of the sample process. *)
Lemma first_page_on_samples :
  exists live w',
    sample_live t0 http_ok fresh_world = (Returned (live, t0), w')
    /\ previous_data (CACHE w') = []
    /\ let ctx := index_view live [] t0 args_all in
       sample_index t0 http_ok args_all fresh_world
       = (match make_map sample_mean (rows ctx) with
          | Returned m => Returned (Page ctx m)
          | Raised e => Raised e
          end, w')
       /\ Forall (fun v => lat_prev v = None /\ lon_prev v = None) (rows ctx)
       /\ forall m, make_map sample_mean (rows ctx) = Returned m -> map_paths m = [].
Proof.
  apply (first_page_draws_no_path sample_parse sample_strftime sample_mean fresh_world
           t0 http_ok args_all vehicles_feed trips_feed sample_vehicles_df).
  - reflexivity.
  - exact I.
  - apply sample_feeds_decode; reflexivity.
  - exact sample_vehicles_decoded.
  - vm_compute. discriminate.
  - vm_compute. discriminate.
Defined.

(** X16 on a latitude in the gap between Gold Coast and Brisbane. *)
Lemma gap_on_samples : categorize_region (-27.76) = "Other".
Proof.
  apply (proj1 (proj2 (proj2 (buckets_apart_with_gaps (-27.76))))); reflexivity.
Defined.

End ExtrasOnSamples.
